(** * canva-app: the export / upload / mockup lifecycle of [src/app.tsx]

    The source file holds two alternative implementations of the same React
    component [App].  Both are embedded here, as [V1] (the first, lines
    1-275) and [V2] (the second, lines 276-549), over a shared model of
    JavaScript strings, of the URI built-ins the component calls and of the
    host capabilities it awaits. *)

From Stdlib Require Import ZArith List Bool Lia String Ascii.
From Stdlib Require Import QArith Lqa.
Import ListNotations.
Open Scope Z_scope.

(* ================================================================= *)
(** ** JavaScript strings *)

(** A JavaScript string is a sequence of 16-bit code units. *)
Definition jsstring := list Z.

Definition code_unit (c : Z) : Prop := 0 <= c < 65536.

Definition code_units (s : jsstring) : Prop := Forall code_unit s.

(** ASCII literals of the source, as code units. *)
Fixpoint lit (s : string) : jsstring :=
  match s with
  | EmptyString => []
  | String a r => Z.of_nat (nat_of_ascii a) :: lit r
  end.

Definition unit_eqb (a b : Z) : bool := a =? b.

(** [===] on strings. *)
Fixpoint str_eqb (a b : jsstring) : bool :=
  match a, b with
  | [], [] => true
  | x :: a', y :: b' => unit_eqb x y && str_eqb a' b'
  | _, _ => false
  end.

(** ToBoolean on a string: only the empty string is falsy. *)
Definition truthy (s : jsstring) : bool :=
  match s with [] => false | _ :: _ => true end.

(** [a || b] on strings. *)
Definition or_else (a b : jsstring) : jsstring :=
  if truthy a then a else b.

(** ToBoolean on [string | null | undefined]. *)
Definition truthy_opt (o : option jsstring) : bool :=
  match o with Some s => truthy s | None => false end.

(** [o || b] where [o] may be [null] or [undefined]. *)
Definition opt_or_else (o : option jsstring) (b : jsstring) : jsstring :=
  match o with Some s => or_else s b | None => b end.

(** *** Surrogates and well-formed UTF-16 *)

Definition is_lead (c : Z) : bool := (0xD800 <=? c) && (c <=? 0xDBFF).
Definition is_trail (c : Z) : bool := (0xDC00 <=? c) && (c <=? 0xDFFF).

(** No unpaired surrogate ([String.prototype.isWellFormed]). *)
Fixpoint isWellFormed (s : jsstring) : bool :=
  match s with
  | [] => true
  | c :: r =>
      if is_lead c then
        match r with
        | d :: r' => is_trail d && isWellFormed r'
        | [] => false
        end
      else if is_trail c then false
      else isWellFormed r
  end.

(** The same, as derivations: a string is well formed when it is built from
    code units that are no surrogates and from lead-trail pairs. *)
Inductive WellFormed : jsstring -> Prop :=
| wf_nil : WellFormed []
| wf_unit c r :
    is_lead c = false -> is_trail c = false ->
    WellFormed r -> WellFormed (c :: r)
| wf_pair c d r :
    is_lead c = true -> is_trail d = true ->
    WellFormed r -> WellFormed (c :: d :: r).

(** *** [String.prototype.trim] *)

(** WhiteSpace and LineTerminator code points of ECMA-262. *)
Definition is_white (c : Z) : bool :=
  ((0x0009 <=? c) && (c <=? 0x000D))
  || (c =? 0x0020) || (c =? 0x00A0) || (c =? 0x1680)
  || ((0x2000 <=? c) && (c <=? 0x200A))
  || (c =? 0x2028) || (c =? 0x2029) || (c =? 0x202F)
  || (c =? 0x205F) || (c =? 0x3000) || (c =? 0xFEFF).

Fixpoint trimStart (s : jsstring) : jsstring :=
  match s with
  | [] => []
  | c :: r => if is_white c then trimStart r else s
  end.

Fixpoint trimEnd (s : jsstring) : jsstring :=
  match s with
  | [] => []
  | c :: r =>
      match trimEnd r with
      | [] => if is_white c then [] else [c]
      | r' => c :: r'
      end
  end.

Definition trim (s : jsstring) : jsstring := trimEnd (trimStart s).

(* ================================================================= *)
(** ** The URI built-ins

    [encodeURIComponent] and [decodeURIComponent] follow the abstract
    operations Encode and Decode of ECMA-262 (section "URI Handling
    Functions"); [None] stands for the [URIError] they throw. *)

Module URI.

(** uriUnescaped: ASCII letters, decimal digits and [- _ . ! ~ * ' ( )]. *)
Definition unescaped (c : Z) : bool :=
  ((0x41 <=? c) && (c <=? 0x5A))
  || ((0x61 <=? c) && (c <=? 0x7A))
  || ((0x30 <=? c) && (c <=? 0x39))
  || (c =? 0x2D) || (c =? 0x5F) || (c =? 0x2E) || (c =? 0x21)
  || (c =? 0x7E) || (c =? 0x2A) || (c =? 0x27) || (c =? 0x28)
  || (c =? 0x29).

(** The UTF-8 octets of a code point. *)
Definition utf8 (cp : Z) : list Z :=
  if cp <? 0x80 then [cp]
  else if cp <? 0x800 then
    [Z.lor 0xC0 (Z.shiftr cp 6); Z.lor 0x80 (Z.land cp 0x3F)]
  else if cp <? 0x10000 then
    [Z.lor 0xE0 (Z.shiftr cp 12);
     Z.lor 0x80 (Z.land (Z.shiftr cp 6) 0x3F);
     Z.lor 0x80 (Z.land cp 0x3F)]
  else
    [Z.lor 0xF0 (Z.shiftr cp 18);
     Z.lor 0x80 (Z.land (Z.shiftr cp 12) 0x3F);
     Z.lor 0x80 (Z.land (Z.shiftr cp 6) 0x3F);
     Z.lor 0x80 (Z.land cp 0x3F)].

(** Upper-case hexadecimal digit of a nibble. *)
Definition hexdigit (n : Z) : Z := if n <? 10 then 0x30 + n else 0x37 + n.

Definition percent : Z := 0x25.

(** One octet as [%XX]. *)
Definition escape_octet (b : Z) : jsstring :=
  [percent; hexdigit (Z.shiftr b 4); hexdigit (Z.land b 0xF)].

Definition escape_octets (bs : list Z) : jsstring := flat_map escape_octet bs.

(** UTF16SurrogatePairToCodePoint. *)
Definition pair_to_code_point (lead trail : Z) : Z :=
  (lead - 0xD800) * 0x400 + (trail - 0xDC00) + 0x10000.

Fixpoint encodeURIComponent (s : jsstring) : option jsstring :=
  match s with
  | [] => Some []
  | c :: r =>
      if unescaped c then option_map (cons c) (encodeURIComponent r)
      else if is_lead c then
        match r with
        | d :: r' =>
            if is_trail d then
              option_map (app (escape_octets (utf8 (pair_to_code_point c d))))
                         (encodeURIComponent r')
            else None
        | [] => None
        end
      else if is_trail c then None
      else option_map (app (escape_octets (utf8 c))) (encodeURIComponent r)
  end.

(** Decode reads the string in two passes here: the escapes first, the
    UTF-8 sequences second.  A code unit that is not part of an escape is
    copied through. *)
Inductive item : Type :=
| Raw (c : Z)
| Octet (b : Z).

(** ParseHexOctet, one digit. *)
Definition hexval (c : Z) : option Z :=
  if (0x30 <=? c) && (c <=? 0x39) then Some (c - 0x30)
  else if (0x41 <=? c) && (c <=? 0x46) then Some (c - 0x37)
  else if (0x61 <=? c) && (c <=? 0x66) then Some (c - 0x57)
  else None.

Fixpoint unescape (s : jsstring) : option (list item) :=
  match s with
  | [] => Some []
  | c :: r =>
      if c =? percent then
        match r with
        | h1 :: h2 :: r' =>
            match hexval h1, hexval h2 with
            | Some a, Some b =>
                option_map (cons (Octet (16 * a + b))) (unescape r')
            | _, _ => None
            end
        | _ => None
        end
      else option_map (cons (Raw c)) (unescape r)
  end.

(** A continuation octet [10xxxxxx]. *)
Definition is_cont (b : Z) : bool := Z.land b 0xC0 =? 0x80.

(** UTF16EncodeCodePoint. *)
Definition utf16 (cp : Z) : jsstring :=
  if cp <? 0x10000 then [cp]
  else [Z.shiftr (cp - 0x10000) 10 + 0xD800;
        Z.land (cp - 0x10000) 0x3FF + 0xDC00].

Definition payload (b : Z) : Z := Z.land b 0x3F.

(** The octets must hold a valid UTF-8 encoding: the shortest form of a
    code point that is no surrogate and at most U+10FFFF. *)
Fixpoint decode_items (l : list item) : option jsstring :=
  match l with
  | [] => Some []
  | Raw c :: r => option_map (cons c) (decode_items r)
  | Octet b :: r =>
      if Z.land b 0x80 =? 0 then option_map (cons b) (decode_items r)
      else if Z.land b 0xE0 =? 0xC0 then
        match r with
        | Octet b1 :: r' =>
            let cp := Z.lor (Z.shiftl (Z.land b 0x1F) 6) (payload b1) in
            if is_cont b1 && (0x80 <=? cp)
            then option_map (app (utf16 cp)) (decode_items r')
            else None
        | _ => None
        end
      else if Z.land b 0xF0 =? 0xE0 then
        match r with
        | Octet b1 :: Octet b2 :: r' =>
            let cp := Z.lor (Z.shiftl (Z.land b 0x0F) 12)
                        (Z.lor (Z.shiftl (payload b1) 6) (payload b2)) in
            if is_cont b1 && is_cont b2 && (0x800 <=? cp)
               && negb ((0xD800 <=? cp) && (cp <=? 0xDFFF))
            then option_map (app (utf16 cp)) (decode_items r')
            else None
        | _ => None
        end
      else if Z.land b 0xF8 =? 0xF0 then
        match r with
        | Octet b1 :: Octet b2 :: Octet b3 :: r' =>
            let cp := Z.lor (Z.shiftl (Z.land b 0x07) 18)
                        (Z.lor (Z.shiftl (payload b1) 12)
                           (Z.lor (Z.shiftl (payload b2) 6) (payload b3))) in
            if is_cont b1 && is_cont b2 && is_cont b3
               && (0x10000 <=? cp) && (cp <=? 0x10FFFF)
            then option_map (app (utf16 cp)) (decode_items r')
            else None
        | _ => None
        end
      else None
  end.

Definition decodeURIComponent (s : jsstring) : option jsstring :=
  match unescape s with
  | Some l => decode_items l
  | None => None
  end.

End URI.

(* ================================================================= *)
(** ** Reading a query parameter back

    What the preview service does with the URL it receives: the query is
    what follows the first [?], its pairs are separated by [&], and a pair
    is split at its first [=]. *)

Module Query.

(** [s] cut at the first [sep]; the second part is [None] when [sep] does
    not occur. *)
Fixpoint cut (sep : Z) (s : jsstring) : jsstring * option jsstring :=
  match s with
  | [] => ([], None)
  | c :: r =>
      if unit_eqb c sep then ([], Some r)
      else let (a, b) := cut sep r in (c :: a, b)
  end.

Fixpoint split (sep : Z) (s : jsstring) : list jsstring :=
  match s with
  | [] => [[]]
  | c :: r =>
      if unit_eqb c sep then [] :: split sep r
      else match split sep r with
           | [] => [[c]]
           | p :: ps => (c :: p) :: ps
           end
  end.

Definition pairs (url : jsstring) : list (jsstring * option jsstring) :=
  match snd (cut 0x3F url) with
  | Some q => map (cut 0x3D) (split 0x26 q)
  | None => []
  end.

Fixpoint lookup (name : jsstring) (l : list (jsstring * option jsstring))
  : option jsstring :=
  match l with
  | [] => None
  | (k, v) :: r =>
      if str_eqb k name
      then match v with Some x => Some x | None => Some [] end
      else lookup name r
  end.

(** The raw value of parameter [name]. *)
Definition raw_param (name url : jsstring) : option jsstring :=
  lookup name (pairs url).

(** The percent-decoded value of parameter [name]. *)
Definition param (name url : jsstring) : option jsstring :=
  match raw_param name url with
  | Some v => URI.decodeURIComponent v
  | None => None
  end.

End Query.

(* ================================================================= *)
(** ** Values exchanged with the host and the upload endpoint *)

(** A thrown value, as the handler reads it: [e?.message]. *)
Record Exn : Type := { message : option jsstring }.

(** The [URIError] of [encodeURIComponent]. *)
Definition URIError : Exn := {| message := Some (lit "URI malformed") |}.

Definition ExportBlob : Type := jsstring.

Inductive ExportStatus : Type := completed | aborted.

Definition is_completed (s : ExportStatus) : bool :=
  match s with completed => true | aborted => false end.

(** What [requestExport] resolves to. *)
Module ExportResult.
Record t : Type := {
  status : ExportStatus;
  title : option jsstring;
  exportBlobs : list ExportBlob
}.
End ExportResult.

(** [type ExportResponse]: the JSON body of the upload endpoint.  The value
    is cast, not validated, so any field can be missing at run time.
    [totalMs] is [timings?.totalMs]; numbers stand as integers, no property
    below computes with them. *)
Record ExportResponse : Type := {
  ok : option bool;
  path : option jsstring;
  url : option jsstring;
  requestId : option jsstring;
  bucket : option jsstring;
  size : option Z;
  contentTypeOut : option jsstring;
  totalMs : option Z;
  error : option jsstring
}.

(** [json?.ok] as a condition; [json] may be [null]. *)
Definition json_ok (json : option ExportResponse) : bool :=
  match json with
  | Some r => match ok r with Some b => b | None => false end
  | None => false
  end.

(** [json?.error]. *)
Definition json_error (json : option ExportResponse) : option jsstring :=
  match json with Some r => error r | None => None end.

(** The argument of [fetch]. *)
Record FetchRequest : Type := {
  endpoint : jsstring;
  method : jsstring;
  contentType : jsstring;
  authorization : jsstring;
  body_title : option jsstring;
  body_files : list ExportBlob;
  body_designToken : jsstring
}.

(** What [fetch] resolves to: [resp.ok], [resp.status] and the outcome of
    [resp.json()]. *)
Record HttpResponse : Type := {
  resp_ok : bool;
  resp_status : Z;
  resp_json : Exn + option ExportResponse
}.

(** [requestOpenExternalUrl] either returns, throws at the call, or returns
    a promise that rejects. *)
Inductive OpenOutcome : Type :=
| Opened
| OpenThrows (e : Exn)
| OpenRejects (e : Exn).

(** The collaborators of one run: what each of them answers.  Tokens are
    opaque to the component and stand as strings. *)
Record Host : Type := {
  requestExport : Exn + ExportResult.t;
  getCanvaUserToken : Exn + jsstring;
  getDesignToken : Exn + jsstring;
  fetch : FetchRequest -> Exn + HttpResponse;
  requestOpenExternalUrl : jsstring -> OpenOutcome
}.

Inductive Call : Type :=
| CallRequestExport
| CallGetCanvaUserToken
| CallGetDesignToken
| CallFetch (req : FetchRequest)
| CallOpenExternalUrl (u : jsstring).

(* ================================================================= *)
(** ** The component's state *)

(** The four [useState] cells.  A setter changes the cell for the next
    render; the variables a handler closed over keep their values during
    the run. *)
Record State : Type := {
  loading : bool;
  errorMessage : option jsstring;
  resultInfo : option ExportResponse;
  title : jsstring
}.

(** [useState(false)], [useState(null)], [useState(null)], [useState("")]. *)
Definition initial : State :=
  {| loading := false; errorMessage := None; resultInfo := None; title := [] |}.

(** The lifecycle phase, read off the cells the way the JSX conditional
    picks what to show.  [Loading] stands for both Exporting and Uploading:
    the component has one flag for the two. *)
Inductive Phase : Type := Idle | Loading | Success | Failed.

(** [loading ? ... : errorMessage ? ... : resultInfo?.ok ? ... : ...] *)
Definition phase (s : State) : Phase :=
  if loading s then Loading
  else if truthy_opt (errorMessage s) then Failed
  else if json_ok (resultInfo s) then Success
  else Idle.

(** What a run leaves behind: the state, the host calls made, in order, and
    the rejections of promises nobody awaited. *)
Record World : Type := {
  state : State;
  calls : list Call;
  unhandled : list Exn
}.

Definition fresh (s : State) : World :=
  {| state := s; calls := []; unhandled := [] |}.

(* ================================================================= *)
(** ** Control flow of an async function body *)

Inductive Completion (A : Type) : Type :=
| Normal (a : A)
| Returned
| Thrown (e : Exn).
Arguments Normal {A} a.
Arguments Returned {A}.
Arguments Thrown {A} e.

Definition M (A : Type) : Type := World -> Completion A * World.

Definition ret {A} (a : A) : M A := fun w => (Normal a, w).

Definition bind {A B} (m : M A) (k : A -> M B) : M B :=
  fun w =>
    match m w with
    | (Normal a, w') => k a w'
    | (Returned, w') => (Returned, w')
    | (Thrown e, w') => (Thrown e, w')
    end.

Notation "x <- m ;; k" := (bind m (fun x => k))
  (at level 61, m at next level, right associativity).
Notation "m ;; k" := (bind m (fun _ => k))
  (at level 61, right associativity).

(** [return;] *)
Definition return_ {A} : M A := fun w => (Returned, w).

(** [throw e] *)
Definition throw {A} (e : Exn) : M A := fun w => (Thrown e, w).

(** [try { m } catch (e) { h e }] *)
Definition try_catch {A} (m : M A) (h : Exn -> M A) : M A :=
  fun w =>
    match m w with
    | (Thrown e, w') => h e w'
    | r => r
    end.

(** [try { m } finally { f }]: [f] runs on every exit of [m]; the
    completion of [m] stands unless [f] itself returns or throws. *)
Definition try_finally {A} (m : M A) (f : M unit) : M A :=
  fun w =>
    match m w with
    | (c, w') =>
        match f w' with
        | (Normal _, w'') => (c, w'')
        | (Returned, w'') => (Returned, w'')
        | (Thrown e, w'') => (Thrown e, w'')
        end
    end.

Definition modify (f : State -> State) : M unit :=
  fun w => (Normal tt,
            {| state := f (state w); calls := calls w;
               unhandled := unhandled w |}).

(** [await c] for a host call [c] with the given outcome. *)
Definition await {A} (c : Call) (outcome : Exn + A) : M A :=
  fun w =>
    let w' := {| state := state w; calls := calls w ++ [c];
                 unhandled := unhandled w |} in
    match outcome with
    | inl e => (Thrown e, w')
    | inr a => (Normal a, w')
    end.

(** [await p] for a promise already at hand. *)
Definition settle {A} (outcome : Exn + A) : M A :=
  fun w =>
    match outcome with
    | inl e => (Thrown e, w)
    | inr a => (Normal a, w)
    end.

(** A built-in that throws [URIError]. *)
Definition uri {A} (o : option A) : M A :=
  match o with Some a => ret a | None => throw URIError end.

(** A promise dropped without [await]: its rejection reaches no handler. *)
Definition reject_unhandled (e : Exn) : M unit :=
  fun w => (Normal tt,
            {| state := state w; calls := calls w;
               unhandled := unhandled w ++ [e] |}).

(** The state setters. *)
Definition setLoading (b : bool) : M unit :=
  modify (fun s => {| loading := b; errorMessage := errorMessage s;
                      resultInfo := resultInfo s; title := title s |}).

Definition setErrorMessage (m : option jsstring) : M unit :=
  modify (fun s => {| loading := loading s; errorMessage := m;
                      resultInfo := resultInfo s; title := title s |}).

Definition setResultInfo (r : option ExportResponse) : M unit :=
  modify (fun s => {| loading := loading s; errorMessage := errorMessage s;
                      resultInfo := r; title := title s |}).

Definition setTitle (t : jsstring) : M unit :=
  modify (fun s => {| loading := loading s; errorMessage := errorMessage s;
                      resultInfo := resultInfo s; title := t |}).

(** How the promise of an async function settles. *)
Inductive Settled : Type := Resolved | Rejected (e : Exn).

Definition settled {A} (c : Completion A) : Settled :=
  match c with
  | Normal _ | Returned => Resolved
  | Thrown e => Rejected e
  end.

(** [requestOpenExternalUrl({ url })]: the call is logged; it throws, or
    hands back a promise that fulfils ([inr]) or rejects ([inl]). *)
Definition call_open (host : Host) (u : jsstring) : M (Exn + unit) :=
  fun w =>
    let w' := {| state := state w; calls := calls w ++ [CallOpenExternalUrl u];
                 unhandled := unhandled w |} in
    match requestOpenExternalUrl host u with
    | Opened => (Normal (inr tt), w')
    | OpenThrows e => (Thrown e, w')
    | OpenRejects e => (Normal (inl e), w')
    end.

(** A promise that is not awaited. *)
Definition drop (p : Exn + unit) : M unit :=
  match p with
  | inl e => reject_unhandled e
  | inr _ => ret tt
  end.

(** The URLs the preview was asked to open, in order. *)
Fixpoint opened (l : list Call) : list jsstring :=
  match l with
  | [] => []
  | CallOpenExternalUrl u :: r => u :: opened r
  | _ :: r => opened r
  end.

(** The upload requests sent, in order. *)
Fixpoint uploads (l : list Call) : list FetchRequest :=
  match l with
  | [] => []
  | CallFetch q :: r => q :: uploads r
  | _ :: r => uploads r
  end.

(* ================================================================= *)
(** ** Constants of both implementations *)

Definition API_BASE : jsstring := lit "https://admin.levebrasa.com".

(** ["2 Canecas Padrão"] *)
Definition modelo : jsstring := lit "2 Canecas Padr" ++ [0xE3] ++ lit "o".

Definition cor : jsstring := lit "Branca".

Definition mockup_base : jsstring :=
  lit "https://admin.levebrasa.com/internal/mockup".

(** The template literal of both URL builders, around the final title. *)
Definition mockup_template (finalTitle : jsstring) : option jsstring :=
  match URI.encodeURIComponent modelo with
  | None => None
  | Some m =>
      match URI.encodeURIComponent finalTitle with
      | None => None
      | Some a =>
          match URI.encodeURIComponent cor with
          | None => None
          | Some c =>
              Some (mockup_base ++ lit "?modelo=" ++ m
                      ++ lit "&arte=" ++ a ++ lit "&cor=" ++ c)
          end
      end
  end.

(** The argument of [fetch] in [handleExportAndSend]. *)
Definition export_request (result : ExportResult.t)
           (userToken designToken : jsstring) : FetchRequest :=
  {| endpoint := API_BASE ++ lit "/api/canva/export";
     method := lit "POST";
     contentType := lit "application/json";
     authorization := lit "Bearer " ++ userToken;
     body_title := ExportResult.title result;
     body_files := ExportResult.exportBlobs result;
     body_designToken := designToken |}.

(** [reset], the same in both implementations. *)
Definition reset : M unit :=
  setErrorMessage None ;;
  setResultInfo None ;;
  setTitle [].

(** The state a transition leaves. *)
Definition after {A} (m : M A) (s : State) : State := state (snd (m (fresh s))).

(** The handlers the JSX binds to buttons. *)
Inductive Handler : Type := OnExportAndSend | OnReset | OnOpenMockup.

(** The [onClick] handlers of the buttons shown for state [s], in order:
    none while loading; "try again" and "clear" on an error; "open mockup"
    and the reset button on success; the export button otherwise. *)
Definition buttons (s : State) : list Handler :=
  match phase s with
  | Loading => []
  | Failed => [OnExportAndSend; OnReset]
  | Success => [OnOpenMockup; OnReset]
  | Idle => [OnExportAndSend]
  end.

(* ================================================================= *)
(** ** First implementation (lines 1-275)

    [console.info], [console.error] and [Date.now] touch neither the state
    nor the host and are left out. *)

Module V1.

(** [mockupUrl]; [title] is the state cell the closure captured. *)
Definition mockupUrl (title : jsstring) (titleParam : option jsstring)
  : option jsstring :=
  mockup_template (or_else (opt_or_else titleParam title) (lit "arte")).

Definition handleExportAndSend (title : jsstring) (host : Host) : M unit :=
  setErrorMessage None ;;
  setResultInfo None ;;
  setLoading true ;;
  try_finally
    (try_catch
       (result <- await CallRequestExport (requestExport host) ;;
        (if negb (is_completed (ExportResult.status result))
         then (setLoading false ;; return_)
         else ret tt) ;;
        setTitle (opt_or_else (ExportResult.title result) (lit "arte")) ;;
        userToken <- await CallGetCanvaUserToken (getCanvaUserToken host) ;;
        designToken <- await CallGetDesignToken (getDesignToken host) ;;
        let req := export_request result userToken designToken in
        resp <- await (CallFetch req) (fetch host req) ;;
        json <- settle (resp_json resp) ;;
        setResultInfo json ;;
        if resp_ok resp && json_ok json then
          try_catch
            (u <- uri (mockupUrl title (ExportResult.title result)) ;;
             p <- call_open host u ;;
             drop p)
            (fun _ => ret tt)
        else
          setErrorMessage
            (Some (opt_or_else (json_error json)
                               (lit "Falha ao enviar a arte."))))
       (fun e =>
          setErrorMessage
            (Some (opt_or_else (message e) (lit "Erro inesperado.")))))
    (setLoading false).

(** The start transition: the handler of the render of state [s]. *)
Definition start (host : Host) (s : State) : Completion unit * World :=
  handleExportAndSend (title s) host (fresh s).

(** The [onClick] of the "open mockup" button (lines 251-257). *)
Definition openMockupClick (title : jsstring) (host : Host) : M unit :=
  try_catch
    (u <- uri (mockupUrl title None) ;;
     p <- call_open host u ;;
     drop p)
    (fun _ => ret tt).

(** The render calls no built-in that throws. *)
Definition render (s : State) : option (list Handler) := Some (buttons s).

(** A click on a button of the render of state [s]. *)
Definition click (host : Host) (s : State) (h : Handler)
  : Completion unit * World :=
  match h with
  | OnExportAndSend => handleExportAndSend (title s) host (fresh s)
  | OnReset => reset (fresh s)
  | OnOpenMockup => openMockupClick (title s) host (fresh s)
  end.

End V1.

(* ================================================================= *)
(** ** Second implementation (lines 276-549)

    [handleExportAndSend] is memoised on [mockupUrl], which changes whenever
    [title || "arte"] does, so the [title] its closure holds and the state
    cell of the render give the same URL. *)

Module V2.

(** [artTitle && artTitle.trim()] *)
Definition and_trim (artTitle : option jsstring) : option jsstring :=
  match artTitle with
  | Some t => if truthy t then Some (trim t) else Some t
  | None => None
  end.

(** [buildMockupUrl]; [title] is the state cell the closure captured. *)
Definition finalTitle (title : jsstring) (artTitle : option jsstring)
  : jsstring :=
  or_else (opt_or_else (and_trim artTitle) title) (lit "arte").

Definition buildMockupUrl (title : jsstring) (artTitle : option jsstring)
  : option jsstring :=
  mockup_template (finalTitle title artTitle).

Definition handleExportAndSend (title : jsstring) (host : Host) : M unit :=
  setErrorMessage None ;;
  setResultInfo None ;;
  setLoading true ;;
  try_finally
    (try_catch
       (result <- await CallRequestExport (requestExport host) ;;
        (if negb (is_completed (ExportResult.status result))
         then (setLoading false ;; return_)
         else ret tt) ;;
        setTitle (opt_or_else (ExportResult.title result) (lit "arte")) ;;
        userToken <- await CallGetCanvaUserToken (getCanvaUserToken host) ;;
        designToken <- await CallGetDesignToken (getDesignToken host) ;;
        let req := export_request result userToken designToken in
        resp <- await (CallFetch req) (fetch host req) ;;
        json <- settle (resp_json resp) ;;
        setResultInfo json ;;
        if resp_ok resp && json_ok json then
          try_catch
            (u <- uri (buildMockupUrl title (ExportResult.title result)) ;;
             p <- call_open host u ;;
             settle p)
            (fun _ => ret tt)
        else
          setErrorMessage
            (Some (opt_or_else (json_error json)
                               (lit "Falha ao enviar a arte."))))
       (fun e =>
          setErrorMessage
            (Some (opt_or_else (message e) (lit "Erro inesperado.")))))
    (setLoading false).

(** The start transition: the handler of the render of state [s]. *)
Definition start (host : Host) (s : State) : Completion unit * World :=
  handleExportAndSend (title s) host (fresh s).

(** [useMemo(() => buildMockupUrl(), [title, modelo, cor])], evaluated
    while rendering. *)
Definition mockupUrl (title : jsstring) : option jsstring :=
  buildMockupUrl title None.

(** [openMockup], around the memoised URL of its render. *)
Definition openMockup (mockupUrl : jsstring) (host : Host) : M unit :=
  p <- call_open host mockupUrl ;;
  settle p.

(** The render evaluates [mockupUrl]; [None] when that throws. *)
Definition render (s : State) : option (list Handler) :=
  match mockupUrl (title s) with
  | Some _ => Some (buttons s)
  | None => None
  end.

(** A click on a button of the render of state [s]. *)
Definition click (host : Host) (s : State) (h : Handler)
  : Completion unit * World :=
  match h with
  | OnExportAndSend => handleExportAndSend (title s) host (fresh s)
  | OnReset => reset (fresh s)
  | OnOpenMockup =>
      (u <- uri (mockupUrl (title s)) ;; openMockup u host) (fresh s)
  end.

End V2.

(* ================================================================= *)
(** ** A formatting helper of the second implementation *)

Module Format.

(** A finite Number is a rational; [None] stands for a value that is not a
    number or not finite.  The division by 1024 of a Number that is at
    least 1024 is exact, so the loop computes with the values as they are. *)

(** [units] *)
Definition units : list jsstring := [lit "B"; lit "KB"; lit "MB"; lit "GB"].

(** [while (v >= 1024 && i < units.length - 1) { v /= 1024; i++; }], with
    [left] for [units.length - 1 - i]. *)
Fixpoint scale (left : nat) (v : Q) (i : nat) : Q * nat :=
  match left with
  | O => (v, i)
  | S k => if Qle_bool 1024%Q v then scale k (v / 1024)%Q (S i) else (v, i)
  end.

(** [v >= 100 ? 0 : v >= 10 ? 1 : 2] *)
Definition decimals (v : Q) : nat :=
  if Qle_bool 100%Q v then 0%nat
  else if Qle_bool 10%Q v then 1%nat else 2%nat.

Section FormatBytes.

(** The built-in [Number.prototype.toFixed]: what it prints for a Number
    and a count of decimals.  It is taken as it is, whatever it prints. *)
Variable toFixed : Q -> nat -> jsstring.

(** [formatBytes] (lines 309-319); the em dash for what is no finite
    number. *)
Definition formatBytes (value : option Q) : jsstring :=
  match value with
  | None => [0x2014]
  | Some x =>
      let (v, i) := scale (List.length units - 1) x 0 in
      toFixed v (decimals v) ++ lit " " ++ nth i units (lit "undefined")
  end.

End FormatBytes.

End Format.

(* ================================================================= *)
(** ** Sessions

    A session starts in [initial]; each step is a click on a button of the
    current render, answered by some host. *)

Section Session.

Variable render : State -> option (list Handler).
Variable click : Host -> State -> Handler -> Completion unit * World.

Inductive step : State -> State -> Prop :=
| step_click host s bs h :
    render s = Some bs ->
    In h bs ->
    step s (state (snd (click host s h))).

Inductive reachable : State -> Prop :=
| reach_initial : reachable initial
| reach_step s s' : reachable s -> step s s' -> reachable s'.

End Session.

(* ================================================================= *)
(** ** Runs of the start transition *)

(** The run of [start] gets as far as a parsed upload response: the export
    completes with [r], both tokens are obtained, [fetch] resolves to
    [resp] and [resp.json()] to [json]. *)
Definition reaches_response (host : Host) (r : ExportResult.t)
           (resp : HttpResponse) (json : option ExportResponse) : Prop :=
  requestExport host = inr r /\
  ExportResult.status r = completed /\
  exists userToken designToken,
    getCanvaUserToken host = inr userToken /\
    getDesignToken host = inr designToken /\
    fetch host (export_request r userToken designToken) = inr resp /\
    resp_json resp = inr json.

(** What holds of the state between two clicks: nothing is loading, an
    error message is not empty, and an upload result comes with a title. *)
Definition at_rest (s : State) : Prop :=
  loading s = false /\
  (forall m, errorMessage s = Some m -> m <> []) /\
  (resultInfo s <> None -> title s <> []).

(** The export dialog was left without completing. *)
Definition dismissed (host : Host) : Prop :=
  exists r, requestExport host = inr r /\ ExportResult.status r <> completed.

(** The run reaches a response that passes [resp.ok && json?.ok]. *)
Definition accepted_upload (host : Host) : Prop :=
  exists r resp json,
    reaches_response host r resp json /\
    resp_ok resp = true /\ json_ok json = true.

(** The failures of steps 2 to 5 of a run. *)
Inductive Failure : Type :=
| UploadRejected (json : option ExportResponse)
| Raised (e : Exn).

Inductive fails (host : Host) : Failure -> Prop :=
| fails_rejected r resp json :
    reaches_response host r resp json ->
    resp_ok resp && json_ok json = false ->
    fails host (UploadRejected json)
| fails_export e :
    requestExport host = inl e ->
    fails host (Raised e)
| fails_user_token r e :
    requestExport host = inr r ->
    ExportResult.status r = completed ->
    getCanvaUserToken host = inl e ->
    fails host (Raised e)
| fails_design_token r userToken e :
    requestExport host = inr r ->
    ExportResult.status r = completed ->
    getCanvaUserToken host = inr userToken ->
    getDesignToken host = inl e ->
    fails host (Raised e)
| fails_fetch r userToken designToken e :
    requestExport host = inr r ->
    ExportResult.status r = completed ->
    getCanvaUserToken host = inr userToken ->
    getDesignToken host = inr designToken ->
    fetch host (export_request r userToken designToken) = inl e ->
    fails host (Raised e)
| fails_json r userToken designToken resp e :
    requestExport host = inr r ->
    ExportResult.status r = completed ->
    getCanvaUserToken host = inr userToken ->
    getDesignToken host = inr designToken ->
    fetch host (export_request r userToken designToken) = inr resp ->
    resp_json resp = inl e ->
    fails host (Raised e).

Definition octet (b : Z) : Prop := 0 <= b < 256.

(** Code units that delimit nothing in a query: not [&], [=] or [?]. *)
Definition is_plain (c : Z) : bool :=
  negb ((c =? 0x26) || (c =? 0x3D) || (c =? 0x3F)).

(** No code unit of [s] is [sep]. *)
Definition free_of (sep : Z) (s : jsstring) : bool :=
  forallb (fun c => negb (unit_eqb c sep)) s.

(** Bounded universal quantification, for facts about octets. *)
Fixpoint below (n : nat) (f : Z -> bool) : bool :=
  match n with
  | O => true
  | S m => f (Z.of_nat m) && below m f
  end.

(* ================================================================= *)
(** ** Sample collaborators *)

Definition sample_export (t : option jsstring) : ExportResult.t :=
  {| ExportResult.status := completed;
     ExportResult.title := t;
     ExportResult.exportBlobs := [lit "blob:design-1"] |}.

Definition dismissed_export : ExportResult.t :=
  {| ExportResult.status := aborted;
     ExportResult.title := None;
     ExportResult.exportBlobs := [] |}.

(** [{ ok: true, path: "x", url: "y", size: 204800, ... }] *)
Definition accepted : ExportResponse :=
  {| ok := Some true; path := Some (lit "x"); url := Some (lit "y");
     requestId := None; bucket := None; size := Some 204800;
     contentTypeOut := Some (lit "image/png"); totalMs := Some 1200;
     error := None |}.

(** ["arquivo inválido"] *)
Definition arquivo_invalido : jsstring :=
  lit "arquivo inv" ++ [0xE1] ++ lit "lido".

(** [{ ok: false, error: "arquivo inválido" }] *)
Definition rejected : ExportResponse :=
  {| ok := Some false; path := None; url := None; requestId := None;
     bucket := None; size := None; contentTypeOut := None; totalMs := None;
     error := Some arquivo_invalido |}.

Definition http (status_ok : bool) (code : Z) (json : option ExportResponse)
  : HttpResponse :=
  {| resp_ok := status_ok; resp_status := code; resp_json := inr json |}.

Definition popup_blocked : Exn := {| message := Some (lit "blocked") |}.

Definition sample_host (e : Exn + ExportResult.t) (f : Exn + HttpResponse)
           (o : OpenOutcome) : Host :=
  {| requestExport := e;
     getCanvaUserToken := inr (lit "user-token");
     getDesignToken := inr (lit "design-token");
     fetch := fun _ => f;
     requestOpenExternalUrl := fun _ => o |}.


(** ["Logo Verão"] *)
Definition logo_verao : jsstring := lit "Logo Ver" ++ [0xE3] ++ lit "o".

(** The export dialog is dismissed. *)
Definition cancel_host : Host :=
  sample_host (inr dismissed_export) (inl popup_blocked) Opened.

(** Export, upload and preview all succeed. *)
Definition happy_host : Host :=
  sample_host (inr (sample_export (Some logo_verao)))
              (inr (http true 200 (Some accepted))) Opened.

(** The upload is accepted and the host refuses to open the preview. *)
Definition blocked_host : Host :=
  sample_host (inr (sample_export (Some logo_verao)))
              (inr (http true 200 (Some accepted))) (OpenThrows popup_blocked).

(** The endpoint declines the upload. *)
Definition rejecting_host : Host :=
  sample_host (inr (sample_export (Some logo_verao)))
              (inr (http true 200 (Some rejected))) Opened.

(** The body says [ok: true] under an HTTP error status. *)
Definition http_error_host : Host :=
  sample_host (inr (sample_export (Some logo_verao)))
              (inr (http false 500 (Some accepted))) Opened.

(** The export completes without a title. *)
Definition untitled_host : Host :=
  sample_host (inr (sample_export None))
              (inr (http true 200 (Some accepted))) Opened.

(** The export's title starts with a space. *)
Definition padded_host : Host :=
  sample_host (inr (sample_export (Some (lit " a"))))
              (inr (http true 200 (Some accepted))) Opened.

(** The export's title is a lead surrogate on its own. *)
Definition lone_surrogate_host : Host :=
  sample_host (inr (sample_export (Some [0xD800])))
              (inr (http true 200 (Some accepted))) Opened.

(** The export's title is a lead surrogate on its own, and the endpoint
    declines the upload. *)
Definition lone_surrogate_rejecting_host : Host :=
  sample_host (inr (sample_export (Some [0xD800])))
              (inr (http true 200 (Some rejected))) Opened.

(** A session that failed earlier and still holds that run's title. *)
Definition failed_session : State :=
  {| loading := false; errorMessage := Some (lit "Erro inesperado.");
     resultInfo := None; title := lit "Caneca" |}.

(** A session caught in flight. *)
Definition loading_session : State :=
  {| loading := true; errorMessage := None; resultInfo := None;
     title := [] |}.

(* ================================================================= *)
(** * Properties *)

Arguments lit : simpl never.
Arguments mockup_template : simpl never.
Arguments trim : simpl never.

Import URI.

(** ** Octets and bit masks *)

Lemma below_spec n f :
  below n f = true -> forall z, 0 <= z < Z.of_nat n -> f z = true.
Proof.
  induction n as [|n IH]; intros H z Hz; [lia|].
  cbn [below] in H. apply andb_true_iff in H as [H0 H1].
  destruct (Z.eq_dec z (Z.of_nat n)) as [->|Hne]; [exact H0|].
  apply IH; [exact H1 | lia].
Qed.

(** Facts about one octet, checked on all 256 of them. *)
Ltac by_cases n :=
  match goal with
  | |- forall b, 0 <= b < _ -> ?P =>
      let b := fresh "b" in
      intros b Hb;
      pattern b;
      match goal with
      | |- (fun x => @?f x = @?g x) b =>
          let H := fresh in
          assert (H : below n (fun x => Z.eqb (f x) (g x)) = true)
            by (vm_compute; reflexivity);
          apply Z.eqb_eq; exact (below_spec _ _ H b Hb)
      end
  end.

Ltac by_cases_bool n :=
  match goal with
  | |- forall b, 0 <= b < _ -> ?P =>
      let b := fresh "b" in
      intros b Hb;
      pattern b;
      match goal with
      | |- (fun x => @?f x = @?g x) b =>
          let H := fresh in
          assert (H : below n (fun x => Bool.eqb (f x) (g x)) = true)
            by (vm_compute; reflexivity);
          apply Bool.eqb_prop; exact (below_spec _ _ H b Hb)
      end
  end.

Lemma lor_80 : forall x, 0 <= x < 64 -> Z.lor 0x80 x = 128 + x.
Proof. by_cases 64%nat. Qed.

Lemma lor_C0 : forall x, 0 <= x < 32 -> Z.lor 0xC0 x = 192 + x.
Proof. by_cases 32%nat. Qed.
Lemma lor_E0 : forall x, 0 <= x < 16 -> Z.lor 0xE0 x = 224 + x.
Proof. by_cases 16%nat. Qed.
Lemma lor_F0 : forall x, 0 <= x < 8 -> Z.lor 0xF0 x = 240 + x.
Proof. by_cases 8%nat. Qed.

Lemma lead1 : forall b, 0 <= b < 256 -> (Z.land b 0x80 =? 0) = (b <? 128).
Proof. by_cases_bool 256%nat. Qed.
Lemma lead2 : forall b, 0 <= b < 256 ->
  (Z.land b 0xE0 =? 0xC0) = (192 <=? b) && (b <? 224).
Proof. by_cases_bool 256%nat. Qed.
Lemma lead3 : forall b, 0 <= b < 256 ->
  (Z.land b 0xF0 =? 0xE0) = (224 <=? b) && (b <? 240).
Proof. by_cases_bool 256%nat. Qed.
Lemma lead4 : forall b, 0 <= b < 256 ->
  (Z.land b 0xF8 =? 0xF0) = (240 <=? b) && (b <? 248).
Proof. by_cases_bool 256%nat. Qed.
Lemma cont_range : forall b, 0 <= b < 256 ->
  URI.is_cont b = (128 <=? b) && (b <? 192).
Proof. by_cases_bool 256%nat. Qed.

Lemma land_mask k a : 0 <= k -> Z.land a (2 ^ k - 1) = a mod 2 ^ k.
Proof.
  intros Hk. rewrite <- Z.land_ones by exact Hk. f_equal.
  rewrite Z.ones_equiv. lia.
Qed.

Lemma lor_shiftl k hi lo :
  0 <= k -> 0 <= lo < 2 ^ k -> Z.lor (Z.shiftl hi k) lo = hi * 2 ^ k + lo.
Proof.
  intros Hk Hlo. rewrite <- Z.shiftl_mul_pow2 by exact Hk.
  rewrite <- Z.add_lor_land.
  assert (E : Z.land (Z.shiftl hi k) lo = 0).
  { apply Z.bits_inj'. intros n Hn.
    rewrite Z.land_spec, Z.bits_0.
    destruct (Z.lt_ge_cases n k) as [L|G].
    - rewrite Z.shiftl_spec_low by exact L. reflexivity.
    - rewrite andb_comm.
      replace (Z.testbit lo n) with false; [reflexivity|].
      symmetry. destruct (Z.eq_dec lo 0) as [->|Hne].
      + apply Z.bits_0.
      + apply Z.bits_above_log2; [lia|].
        apply Z.lt_le_trans with k; [|exact G].
        apply Z.log2_lt_pow2; lia. }
  rewrite E. lia.
Qed.


Lemma payload_mod b : payload b = b mod 64.
Proof. unfold payload. exact (land_mask 6 b ltac:(lia)). Qed.

Lemma utf8_1 cp : cp < 0x80 -> utf8 cp = [cp].
Proof. intros H. unfold utf8. destruct (Z.ltb_spec cp 0x80); [reflexivity|lia]. Qed.

Lemma utf8_2 cp : 0x80 <= cp < 0x800 ->
  utf8 cp = [192 + cp / 64; 128 + cp mod 64].
Proof.
  intros H. unfold utf8.
  destruct (Z.ltb_spec cp 0x80); [lia|].
  destruct (Z.ltb_spec cp 0x800); [|lia].
  rewrite Z.shiftr_div_pow2 by lia.
  rewrite (land_mask 6) by lia.
  change (2 ^ 6) with 64.
  rewrite lor_C0, lor_80; [reflexivity| |]; Z.div_mod_to_equations; lia.
Qed.

Lemma utf8_3 cp : 0x800 <= cp < 0x10000 ->
  utf8 cp = [224 + cp / 4096; 128 + (cp / 64) mod 64; 128 + cp mod 64].
Proof.
  intros H. unfold utf8.
  destruct (Z.ltb_spec cp 0x80); [lia|].
  destruct (Z.ltb_spec cp 0x800); [lia|].
  destruct (Z.ltb_spec cp 0x10000); [|lia].
  rewrite !Z.shiftr_div_pow2 by lia.
  rewrite !(land_mask 6) by lia.
  change (2 ^ 6) with 64. change (2 ^ 12) with 4096.
  rewrite lor_E0, !lor_80; [reflexivity| | |]; Z.div_mod_to_equations; lia.
Qed.

Lemma utf8_4 cp : 0x10000 <= cp < 0x110000 ->
  utf8 cp = [240 + cp / 262144; 128 + (cp / 4096) mod 64;
             128 + (cp / 64) mod 64; 128 + cp mod 64].
Proof.
  intros H. unfold utf8.
  destruct (Z.ltb_spec cp 0x80); [lia|].
  destruct (Z.ltb_spec cp 0x800); [lia|].
  destruct (Z.ltb_spec cp 0x10000); [lia|].
  rewrite !Z.shiftr_div_pow2 by lia.
  rewrite !(land_mask 6) by lia.
  change (2 ^ 6) with 64. change (2 ^ 12) with 4096.
  change (2 ^ 18) with 262144.
  rewrite lor_F0, !lor_80; [reflexivity| | | |]; Z.div_mod_to_equations; lia.
Qed.


Lemma utf8_octets cp : 0 <= cp < 0x110000 -> Forall octet (utf8 cp).
Proof.
  intros H. unfold octet.
  destruct (Z.lt_ge_cases cp 0x80); [rewrite utf8_1 by lia|
  destruct (Z.lt_ge_cases cp 0x800); [rewrite utf8_2 by lia|
  destruct (Z.lt_ge_cases cp 0x10000); [rewrite utf8_3 by lia|
    rewrite utf8_4 by lia]]];
  repeat constructor; Z.div_mod_to_equations; lia.
Qed.

(** Settling comparisons that linear arithmetic decides. *)
Ltac settle_test :=
  match goal with
  | |- context [?a <? ?b] =>
      first [ replace (a <? b) with true by (symmetry; apply Z.ltb_lt; lia)
            | replace (a <? b) with false by (symmetry; apply Z.ltb_ge; lia) ]
  | |- context [?a <=? ?b] =>
      first [ replace (a <=? b) with true by (symmetry; apply Z.leb_le; lia)
            | replace (a <=? b) with false by (symmetry; apply Z.leb_gt; lia) ]
  end.

Ltac settle_tests := repeat settle_test; cbn [andb negb]; cbv iota.

Lemma decode_1 b its : 0 <= b < 128 ->
  decode_items (Octet b :: its) = option_map (cons b) (decode_items its).
Proof.
  intros H. cbn [decode_items]. rewrite (lead1 b) by lia.
  settle_tests. reflexivity.
Qed.

Lemma decode_2 a p its : 2 <= a < 32 -> 0 <= p < 64 ->
  decode_items (Octet (192 + a) :: Octet (128 + p) :: its)
  = option_map (app (utf16 (a * 64 + p))) (decode_items its).
Proof.
  intros Ha Hp. cbn [decode_items].
  rewrite (lead1 (192 + a)), (lead2 (192 + a)) by lia. settle_tests.
  rewrite (cont_range (128 + p)), payload_mod by lia.
  change 0x1F with (2 ^ 5 - 1). rewrite (land_mask 5 (192 + a)) by lia.
  rewrite lor_shiftl by (try lia; Z.div_mod_to_equations; lia).
  replace ((192 + a) mod 2 ^ 5 * 2 ^ 6 + (128 + p) mod 64) with (a * 64 + p)
    by (Z.div_mod_to_equations; lia).
  settle_tests. reflexivity.
Qed.

Lemma decode_3 a p q its :
  0 <= a < 16 -> 0 <= p < 64 -> 0 <= q < 64 ->
  0x800 <= a * 4096 + p * 64 + q ->
  ~ (0xD800 <= a * 4096 + p * 64 + q <= 0xDFFF) ->
  decode_items (Octet (224 + a) :: Octet (128 + p) :: Octet (128 + q) :: its)
  = option_map (app (utf16 (a * 4096 + p * 64 + q))) (decode_items its).
Proof.
  intros Ha Hp Hq Hlo Hsur. cbn [decode_items].
  rewrite (lead1 (224 + a)), (lead2 (224 + a)), (lead3 (224 + a)) by lia.
  settle_tests.
  rewrite (cont_range (128 + p)), (cont_range (128 + q)), !payload_mod by lia.
  change 0x0F with (2 ^ 4 - 1). rewrite (land_mask 4 (224 + a)) by lia.
  rewrite (lor_shiftl 6) by (try lia; Z.div_mod_to_equations; lia).
  rewrite (lor_shiftl 12) by (try lia; Z.div_mod_to_equations; lia).
  replace ((224 + a) mod 2 ^ 4 * 2 ^ 12
           + ((128 + p) mod 64 * 2 ^ 6 + (128 + q) mod 64))
    with (a * 4096 + p * 64 + q) by (Z.div_mod_to_equations; lia).
  destruct (Z.lt_ge_cases (a * 4096 + p * 64 + q) 0xD800);
    settle_tests; reflexivity.
Qed.

Lemma decode_4 a p q t its :
  0 <= a < 8 -> 0 <= p < 64 -> 0 <= q < 64 -> 0 <= t < 64 ->
  0x10000 <= a * 262144 + p * 4096 + q * 64 + t <= 0x10FFFF ->
  decode_items (Octet (240 + a) :: Octet (128 + p) :: Octet (128 + q)
                  :: Octet (128 + t) :: its)
  = option_map (app (utf16 (a * 262144 + p * 4096 + q * 64 + t)))
               (decode_items its).
Proof.
  intros Ha Hp Hq Ht Hcp. cbn [decode_items].
  rewrite (lead1 (240 + a)), (lead2 (240 + a)), (lead3 (240 + a)),
    (lead4 (240 + a)) by lia.
  settle_tests.
  rewrite (cont_range (128 + p)), (cont_range (128 + q)),
    (cont_range (128 + t)), !payload_mod by lia.
  change 0x07 with (2 ^ 3 - 1). rewrite (land_mask 3 (240 + a)) by lia.
  rewrite (lor_shiftl 6) by (try lia; Z.div_mod_to_equations; lia).
  rewrite (lor_shiftl 12) by (try lia; Z.div_mod_to_equations; lia).
  rewrite (lor_shiftl 18) by (try lia; Z.div_mod_to_equations; lia).
  replace ((240 + a) mod 2 ^ 3 * 2 ^ 18
           + ((128 + p) mod 64 * 2 ^ 12
              + ((128 + q) mod 64 * 2 ^ 6 + (128 + t) mod 64)))
    with (a * 262144 + p * 4096 + q * 64 + t)
    by (Z.div_mod_to_equations; lia).
  settle_tests. reflexivity.
Qed.

(** Decoding undoes the UTF-8 encoding of a scalar value. *)
Lemma decode_utf8 cp its :
  0 <= cp < 0x110000 -> ~ (0xD800 <= cp <= 0xDFFF) ->
  decode_items (map Octet (utf8 cp) ++ its)
  = option_map (app (utf16 cp)) (decode_items its).
Proof.
  intros H Hs.
  destruct (Z.lt_ge_cases cp 0x80).
  { rewrite utf8_1 by lia. cbn [map app]. rewrite decode_1 by lia.
    unfold utf16. destruct (Z.ltb_spec cp 0x10000); [|lia].
    destruct (decode_items its); reflexivity. }
  destruct (Z.lt_ge_cases cp 0x800).
  { rewrite utf8_2 by lia. cbn [map app].
    rewrite decode_2 by (Z.div_mod_to_equations; lia).
    replace (cp / 64 * 64 + cp mod 64) with cp
      by (Z.div_mod_to_equations; lia).
    reflexivity. }
  destruct (Z.lt_ge_cases cp 0x10000).
  { rewrite utf8_3 by lia. cbn [map app].
    rewrite decode_3 by (Z.div_mod_to_equations; lia).
    replace (cp / 4096 * 4096 + (cp / 64) mod 64 * 64 + cp mod 64) with cp
      by (Z.div_mod_to_equations; lia).
    reflexivity. }
  rewrite utf8_4 by lia. cbn [map app].
  rewrite decode_4 by (Z.div_mod_to_equations; lia).
  replace (cp / 262144 * 262144 + (cp / 4096) mod 64 * 4096
           + (cp / 64) mod 64 * 64 + cp mod 64) with cp
    by (Z.div_mod_to_equations; lia).
  reflexivity.
Qed.

(** *** Escapes *)

Lemma unescape_escape_octet b e : octet b ->
  unescape (escape_octet b ++ e) = option_map (cons (Octet b)) (unescape e).
Proof.
  intros Hb.
  assert (E : match hexval (hexdigit (Z.shiftr b 4)),
                    hexval (hexdigit (Z.land b 0xF)) with
              | Some x, Some y => 16 * x + y =? b
              | _, _ => false
              end = true).
  { revert b Hb. unfold octet.
    assert (H : below 256 (fun b =>
               match hexval (hexdigit (Z.shiftr b 4)),
                     hexval (hexdigit (Z.land b 0xF)) with
               | Some x, Some y => 16 * x + y =? b
               | _, _ => false
               end) = true) by (vm_compute; reflexivity).
    exact (below_spec _ _ H). }
  unfold escape_octet. cbn [app unescape]. rewrite Z.eqb_refl.
  destruct (hexval (hexdigit (Z.shiftr b 4))) as [x|]; [|discriminate].
  destruct (hexval (hexdigit (Z.land b 0xF))) as [y|]; [|discriminate].
  apply Z.eqb_eq in E. rewrite E. reflexivity.
Qed.

Lemma unescape_escape_octets bs e : Forall octet bs ->
  unescape (escape_octets bs ++ e) = option_map (app (map Octet bs)) (unescape e).
Proof.
  induction 1 as [|b bs Hb _ IH]; cbn [escape_octets flat_map map app].
  - destruct (unescape e); reflexivity.
  - rewrite <- app_assoc, unescape_escape_octet by exact Hb.
    fold (escape_octets bs). rewrite IH.
    destruct (unescape e); reflexivity.
Qed.

Lemma unescaped_not_percent c : unescaped c = true -> (c =? percent) = false.
Proof.
  intros H. apply Z.eqb_neq. intros ->. discriminate.
Qed.

(** *** Surrogate pairs *)

Lemma lead_range c : is_lead c = true -> 0xD800 <= c <= 0xDBFF.
Proof. unfold is_lead. rewrite andb_true_iff, !Z.leb_le. tauto. Qed.

Lemma trail_range c : is_trail c = true -> 0xDC00 <= c <= 0xDFFF.
Proof. unfold is_trail. rewrite andb_true_iff, !Z.leb_le. tauto. Qed.

Lemma no_surrogate c :
  is_lead c = false -> is_trail c = false -> ~ (0xD800 <= c <= 0xDFFF).
Proof.
  unfold is_lead, is_trail. rewrite !andb_false_iff, !Z.leb_gt. lia.
Qed.

Lemma lead_escaped c : is_lead c = true -> unescaped c = false.
Proof.
  intros L%lead_range. apply not_true_iff_false. intros U.
  unfold unescaped in U.
  repeat rewrite ?orb_true_iff, ?andb_true_iff, ?Z.leb_le, ?Z.eqb_eq in U.
  lia.
Qed.

Lemma pair_range c d : is_lead c = true -> is_trail d = true ->
  0x10000 <= pair_to_code_point c d < 0x110000.
Proof.
  intros Hc%lead_range Hd%trail_range. unfold pair_to_code_point. lia.
Qed.

Lemma utf16_pair c d : is_lead c = true -> is_trail d = true ->
  utf16 (pair_to_code_point c d) = [c; d].
Proof.
  intros Hc Hd. pose proof (pair_range c d Hc Hd) as R.
  apply lead_range in Hc. apply trail_range in Hd.
  unfold utf16. destruct (Z.ltb_spec (pair_to_code_point c d) 0x10000); [lia|].
  rewrite Z.shiftr_div_pow2 by lia. change 0x3FF with (2 ^ 10 - 1).
  rewrite (land_mask 10) by lia. unfold pair_to_code_point.
  f_equal; [|f_equal]; Z.div_mod_to_equations; lia.
Qed.

Lemma utf16_unit c : c < 0x10000 -> utf16 c = [c].
Proof.
  intros H. unfold utf16. destruct (Z.ltb_spec c 0x10000); [reflexivity|lia].
Qed.

(** *** The round trip *)

Lemma isWellFormed_WellFormed s : isWellFormed s = true -> WellFormed s.
Proof.
  remember (List.length s) as n eqn:Hn.
  revert s Hn. induction n as [n IH] using (well_founded_induction lt_wf).
  intros [|c [|d r]] Hn H.
  - constructor.
  - cbn in H. destruct (is_lead c) eqn:L; [discriminate|].
    destruct (is_trail c) eqn:T; [discriminate|].
    apply wf_unit; [assumption..|constructor].
  - cbn [isWellFormed] in H. destruct (is_lead c) eqn:L.
    + apply andb_true_iff in H as [T H].
      apply wf_pair; [assumption..|].
      apply (IH (List.length r)); [subst n; cbn; lia|reflexivity|exact H].
    + destruct (is_trail c) eqn:T; [discriminate|].
      apply wf_unit; [assumption..|].
      apply (IH (List.length (d :: r))); [subst n; cbn; lia|reflexivity|exact H].
Qed.

Lemma WellFormed_isWellFormed s : WellFormed s -> isWellFormed s = true.
Proof.
  induction 1 as [|c r L T _ IH|c d r L T _ IH].
  - reflexivity.
  - cbn [isWellFormed]. rewrite L, T. exact IH.
  - cbn [isWellFormed]. rewrite L, T. exact IH.
Qed.

(** Encoding a well-formed string succeeds, and the escapes of the result
    hold the string's UTF-8 octets. *)
Lemma encode_decode_items s :
  code_units s -> WellFormed s ->
  exists e its,
    encodeURIComponent s = Some e /\
    unescape e = Some its /\
    decode_items its = Some s.
Proof.
  intros Hu Hw. induction Hw as [|c r L T _ IH|c d r L T _ IH].
  - exists [], []. repeat split.
  - inversion Hu as [|? ? Hc Hr]; subst.
    destruct (IH Hr) as (e & its & He & Hx & Hd).
    cbn [encodeURIComponent]. rewrite L, T, He.
    destruct (unescaped c) eqn:U.
    + exists (c :: e), (Raw c :: its). cbn [option_map unescape decode_items].
      rewrite (unescaped_not_percent c U), Hx, Hd. repeat split.
    + unfold code_unit in Hc. pose proof (no_surrogate c L T) as Hs.
      exists (escape_octets (utf8 c) ++ e), (map Octet (utf8 c) ++ its).
      cbn [option_map].
      rewrite unescape_escape_octets by (apply utf8_octets; lia).
      rewrite decode_utf8 by lia.
      rewrite Hx, Hd, utf16_unit by lia. repeat split.
  - inversion Hu as [|? ? Hc Hr']; subst.
    inversion Hr' as [|? ? Hd' Hr]; subst.
    destruct (IH Hr) as (e & its & He & Hx & Hd).
    pose proof (pair_range c d L T) as R.
    cbn [encodeURIComponent]. rewrite (lead_escaped c L), L, T, He.
    exists (escape_octets (utf8 (pair_to_code_point c d)) ++ e),
           (map Octet (utf8 (pair_to_code_point c d)) ++ its).
    cbn [option_map].
    rewrite unescape_escape_octets by (apply utf8_octets; lia).
    rewrite decode_utf8 by lia.
    rewrite Hx, Hd, utf16_pair by assumption. repeat split.
Qed.

Lemma encode_decode s :
  code_units s -> isWellFormed s = true ->
  exists e, encodeURIComponent s = Some e /\ decodeURIComponent e = Some s.
Proof.
  intros Hu Hw. apply isWellFormed_WellFormed in Hw.
  destruct (encode_decode_items s Hu Hw) as (e & its & He & Hx & Hd).
  exists e. split; [exact He|]. unfold decodeURIComponent. rewrite Hx. exact Hd.
Qed.

(** An unpaired surrogate anywhere makes the encoder throw. *)
Lemma encode_ill_formed s :
  isWellFormed s = false -> encodeURIComponent s = None.
Proof.
  remember (List.length s) as n eqn:Hn.
  revert s Hn. induction n as [n IH] using (well_founded_induction lt_wf).
  intros [|c r] Hn H; [discriminate|].
  cbn [isWellFormed] in H. cbn [encodeURIComponent].
  destruct (is_lead c) eqn:L.
  - rewrite (lead_escaped c L).
    destruct r as [|d r']; [reflexivity|].
    destruct (is_trail d); [|reflexivity].
    rewrite (IH (List.length r')); [reflexivity|subst n; cbn; lia|reflexivity|].
    exact H.
  - destruct (is_trail c) eqn:T.
    + replace (unescaped c) with false; [reflexivity|].
      symmetry. apply not_true_iff_false. intros U.
      apply trail_range in T. unfold unescaped in U.
      repeat rewrite ?orb_true_iff, ?andb_true_iff, ?Z.leb_le, ?Z.eqb_eq in U.
      lia.
    + rewrite (IH (List.length r)); [|subst n; cbn; lia|reflexivity|exact H].
      destruct (unescaped c); reflexivity.
Qed.

(** *** What the encoder emits *)

Lemma unescaped_plain c : unescaped c = true -> is_plain c = true.
Proof.
  intros U. unfold is_plain.
  destruct (Z.eqb_spec c 0x26) as [->|_]; [discriminate|].
  destruct (Z.eqb_spec c 0x3D) as [->|_]; [discriminate|].
  destruct (Z.eqb_spec c 0x3F) as [->|_]; [discriminate|].
  reflexivity.
Qed.

Lemma escape_octet_plain b : octet b -> forallb is_plain (escape_octet b) = true.
Proof.
  revert b. unfold octet.
  assert (H : below 256 (fun b => forallb is_plain (escape_octet b)) = true)
    by (vm_compute; reflexivity).
  exact (below_spec _ _ H).
Qed.

Lemma escape_octets_plain bs :
  Forall octet bs -> forallb is_plain (escape_octets bs) = true.
Proof.
  induction 1 as [|b bs Hb _ IH]; [reflexivity|].
  cbn [escape_octets flat_map]. rewrite forallb_app.
  rewrite escape_octet_plain by exact Hb. exact IH.
Qed.

Lemma encode_plain s :
  code_units s -> WellFormed s ->
  forall e, encodeURIComponent s = Some e -> forallb is_plain e = true.
Proof.
  intros Hu Hw. induction Hw as [|c r L T _ IH|c d r L T _ IH]; intros e He.
  - inversion He. reflexivity.
  - inversion Hu as [|? ? Hc Hr]; subst. unfold code_unit in Hc.
    cbn [encodeURIComponent] in He. rewrite L, T in He.
    destruct (encodeURIComponent r) as [e'|];
      [|destruct (unescaped c); discriminate].
    specialize (IH Hr e' eq_refl).
    destruct (unescaped c) eqn:U; inversion He; subst.
    + cbn [forallb]. rewrite (unescaped_plain c U). exact IH.
    + rewrite forallb_app, IH.
      rewrite escape_octets_plain by (apply utf8_octets; lia). reflexivity.
  - inversion Hu as [|? ? Hc Hr']; subst.
    inversion Hr' as [|? ? Hd' Hr]; subst.
    pose proof (pair_range c d L T) as R.
    cbn [encodeURIComponent] in He.
    rewrite (lead_escaped c L), L, T in He.
    destruct (encodeURIComponent r) as [e'|]; [|discriminate].
    specialize (IH Hr e' eq_refl). inversion He; subst.
    rewrite forallb_app, IH.
    rewrite escape_octets_plain by (apply utf8_octets; lia). reflexivity.
Qed.

(** *** Cutting and splitting *)

Lemma cut_app_sep sep p y :
  free_of sep p = true -> Query.cut sep (p ++ sep :: y) = (p, Some y).
Proof.
  unfold free_of. induction p as [|c p IH]; cbn [forallb app Query.cut].
  - intros _. unfold unit_eqb. rewrite Z.eqb_refl. reflexivity.
  - intros [Hc Hp]%andb_true_iff. apply negb_true_iff in Hc.
    rewrite Hc, (IH Hp). reflexivity.
Qed.

Lemma split_app_sep sep a y :
  free_of sep a = true ->
  Query.split sep (a ++ sep :: y) = a :: Query.split sep y.
Proof.
  unfold free_of. induction a as [|c a IH]; cbn [forallb app Query.split].
  - intros _. unfold unit_eqb. rewrite Z.eqb_refl. reflexivity.
  - intros [Hc Ha]%andb_true_iff. apply negb_true_iff in Hc.
    rewrite Hc, (IH Ha). reflexivity.
Qed.

Lemma plain_free a :
  forallb is_plain a = true ->
  free_of 0x26 a = true /\ free_of 0x3D a = true /\ free_of 0x3F a = true.
Proof.
  unfold free_of. induction a as [|c a IH]; cbn [forallb]; [auto|].
  intros [Hc Ha]%andb_true_iff. destruct (IH Ha) as (I1 & I2 & I3).
  rewrite I1, I2, I3. unfold is_plain in Hc. unfold unit_eqb.
  apply negb_true_iff in Hc.
  apply orb_false_iff in Hc as [Hc H3]. apply orb_false_iff in Hc as [H1 H2].
  rewrite H1, H2, H3. auto.
Qed.

Lemma encoded_modelo :
  encodeURIComponent modelo = Some (lit "2%20Canecas%20Padr%C3%A3o").
Proof. vm_compute. reflexivity. Qed.

Lemma encoded_cor : encodeURIComponent cor = Some (lit "Branca").
Proof. vm_compute. reflexivity. Qed.

(** The shape of the URL, and the raw [arte] value in it. *)
Lemma template_shape t a :
  encodeURIComponent t = Some a ->
  mockup_template t
  = Some (mockup_base ++ 0x3F ::
            (lit "modelo=2%20Canecas%20Padr%C3%A3o" ++ 0x26 ::
               ((lit "arte=" ++ a) ++ 0x26 :: lit "cor=Branca"))).
Proof.
  intros Ha. unfold mockup_template.
  rewrite encoded_modelo, Ha, encoded_cor. reflexivity.
Qed.

Lemma template_raw_arte t a :
  encodeURIComponent t = Some a ->
  forallb is_plain a = true ->
  exists u, mockup_template t = Some u /\
            Query.raw_param (lit "arte") u = Some a.
Proof.
  intros Ha Hp. destruct (plain_free a Hp) as (F1 & F2 & F3).
  eexists. split; [apply template_shape; exact Ha|].
  unfold Query.raw_param, Query.pairs.
  rewrite cut_app_sep by reflexivity. cbn [snd].
  rewrite split_app_sep by reflexivity.
  rewrite split_app_sep.
  2:{ unfold free_of. rewrite forallb_app. fold (free_of 0x26 a).
      rewrite F1. reflexivity. }
  reflexivity.
Qed.

(** *** Trimming keeps a string well formed *)

Example trim_sample :
  trim ([0x20; 0x09] ++ lit "a b" ++ [0xA0; 0x0A]) = lit "a b".
Proof. reflexivity. Qed.

Lemma white_no_surrogate c :
  is_white c = true -> is_lead c = false /\ is_trail c = false.
Proof.
  unfold is_white, is_lead, is_trail. intros H.
  repeat rewrite ?orb_true_iff, ?andb_true_iff, ?Z.leb_le, ?Z.eqb_eq in H.
  rewrite !andb_false_iff, !Z.leb_gt. lia.
Qed.

Lemma lead_not_white c : is_lead c = true -> is_white c = false.
Proof.
  intros L. destruct (is_white c) eqn:W; [|reflexivity].
  apply white_no_surrogate in W as [W _]. congruence.
Qed.

Lemma trail_not_white c : is_trail c = true -> is_white c = false.
Proof.
  intros T. destruct (is_white c) eqn:W; [|reflexivity].
  apply white_no_surrogate in W as [_ W]. congruence.
Qed.

Lemma trimStart_WellFormed s : WellFormed s -> WellFormed (trimStart s).
Proof.
  induction 1 as [|c r L T Hr IH|c d r L T Hr IH]; cbn [trimStart].
  - constructor.
  - destruct (is_white c); [exact IH|]. apply wf_unit; assumption.
  - rewrite (lead_not_white c L). apply wf_pair; assumption.
Qed.

Lemma trimEnd_cons_keep c r :
  is_white c = false -> trimEnd (c :: r) = c :: trimEnd r.
Proof.
  intros W. cbn [trimEnd]. rewrite W. destruct (trimEnd r); reflexivity.
Qed.

Lemma trimEnd_WellFormed s : WellFormed s -> WellFormed (trimEnd s).
Proof.
  induction 1 as [|c r L T Hr IH|c d r L T Hr IH].
  - constructor.
  - cbn [trimEnd]. destruct (trimEnd r) as [|x r'] eqn:E.
    + destruct (is_white c); [constructor|].
      apply wf_unit; [assumption..|constructor].
    + apply wf_unit; assumption.
  - rewrite (trimEnd_cons_keep c) by (apply lead_not_white; exact L).
    rewrite (trimEnd_cons_keep d) by (apply trail_not_white; exact T).
    apply wf_pair; assumption.
Qed.

Lemma trimStart_units s : code_units s -> code_units (trimStart s).
Proof.
  induction 1 as [|c r Hc Hr IH]; cbn [trimStart]; [constructor|].
  destruct (is_white c); [exact IH|]. constructor; assumption.
Qed.

Lemma trimEnd_units s : code_units s -> code_units (trimEnd s).
Proof.
  induction 1 as [|c r Hc Hr IH]; cbn [trimEnd]; [constructor|].
  destruct (trimEnd r) as [|x r'].
  - destruct (is_white c); [constructor|]. constructor; [exact Hc|constructor].
  - constructor; assumption.
Qed.

Lemma trim_WellFormed s : WellFormed s -> WellFormed (trim s).
Proof. intros H. apply trimEnd_WellFormed, trimStart_WellFormed, H. Qed.

Lemma trim_units s : code_units s -> code_units (trim s).
Proof. intros H. apply trimEnd_units, trimStart_units, H. Qed.

Lemma or_else_cases (P : jsstring -> Prop) a b : P a -> P b -> P (or_else a b).
Proof. intros. unfold or_else. destruct (truthy a); assumption. Qed.

Lemma lit_units (x : string) : code_units (lit x).
Proof.
  induction x as [|a x IH]; constructor; [|exact IH].
  unfold code_unit. pose proof (nat_ascii_bounded a). lia.
Qed.

(** The decoded [arte] parameter of the template is the final title. *)
Lemma template_arte t :
  code_units t -> WellFormed t ->
  exists u, mockup_template t = Some u /\ Query.param (lit "arte") u = Some t.
Proof.
  intros Hu Hw.
  destruct (encode_decode_items t Hu Hw) as (a & its & Ha & Hx & Hd).
  destruct (template_raw_arte t a Ha (encode_plain t Hu Hw a Ha))
    as (u & Hm & Hr).
  exists u. split; [exact Hm|].
  unfold Query.param, decodeURIComponent. rewrite Hr, Hx. exact Hd.
Qed.

(** ** Evaluating a run *)

Ltac unfold_run :=
  unfold V1.start, V2.start, V1.handleExportAndSend, V2.handleExportAndSend,
    after, reset, try_finally, try_catch, bind, await, settle, uri, drop,
    call_open, reject_unhandled, setLoading, setErrorMessage, setResultInfo,
    setTitle, modify, ret, return_, throw, fresh.

Ltac use_outcome :=
  match goal with
  | H : requestExport _ = _ |- _ => rewrite H
  | H : getCanvaUserToken _ = _ |- _ => rewrite H
  | H : getDesignToken _ = _ |- _ => rewrite H
  | H : fetch _ _ = _ |- _ => rewrite H
  | H : resp_json _ = _ |- _ => rewrite H
  | H : resp_ok _ = _ |- _ => rewrite H
  | H : json_ok _ = _ |- _ => rewrite H
  | H : ExportResult.status _ = _ |- _ => rewrite H
  | H : (_ && _)%bool = _ |- _ => rewrite H
  end.

Ltac run := unfold_run; cbv zeta; repeat (first [use_outcome | progress cbn]).

(** Case split on whatever outcome the run still waits for. *)
Ltac split_outcome :=
  match goal with
  | |- context [match requestExport ?h with _ => _ end] =>
      destruct (requestExport h) as [?e|?r] eqn:?
  | |- context [is_completed (ExportResult.status ?r)] =>
      destruct (ExportResult.status r) eqn:?
  | |- context [match getCanvaUserToken ?h with _ => _ end] =>
      destruct (getCanvaUserToken h) as [?e|?t] eqn:?
  | |- context [match getDesignToken ?h with _ => _ end] =>
      destruct (getDesignToken h) as [?e|?t] eqn:?
  | |- context [match fetch ?h ?q with _ => _ end] =>
      destruct (fetch h q) as [?e|?resp] eqn:?
  | |- context [match resp_json ?p with _ => _ end] =>
      destruct (resp_json p) as [?e|?json] eqn:?
  | |- context [if (resp_ok ?p && json_ok ?j)%bool then _ else _] =>
      destruct (resp_ok p && json_ok j)%bool eqn:?
  | |- context [match V1.mockupUrl ?t ?a with _ => _ end] =>
      destruct (V1.mockupUrl t a) eqn:?
  | |- context [match V2.buildMockupUrl ?t ?a with _ => _ end] =>
      destruct (V2.buildMockupUrl t a) eqn:?
  | |- context [match requestOpenExternalUrl ?h ?u with _ => _ end] =>
      destruct (requestOpenExternalUrl h u) eqn:?
  end.

Ltac all_runs := run; repeat (split_outcome; run).

(** ** The mockup URL *)

Lemma final_title_ok a b :
  code_units a -> WellFormed a -> code_units b -> WellFormed b ->
  code_units (or_else (or_else a b) (lit "arte")) /\
  WellFormed (or_else (or_else a b) (lit "arte")).
Proof.
  intros Ha Wa Hb Wb. split.
  - repeat apply or_else_cases; try assumption. apply lit_units.
  - repeat apply or_else_cases; try assumption.
    apply isWellFormed_WellFormed. reflexivity.
Qed.

Lemma V2_finalTitle_some title T :
  V2.finalTitle title (Some T) = or_else (or_else (trim T) title) (lit "arte").
Proof.
  unfold V2.finalTitle, V2.and_trim, opt_or_else.
  destruct T; reflexivity.
Qed.

(** No URL is built around a final title with an unpaired surrogate. *)
Lemma template_ill_formed t :
  isWellFormed t = false -> mockup_template t = None.
Proof.
  intros H. unfold mockup_template.
  rewrite encoded_modelo, (encode_ill_formed t H). reflexivity.
Qed.

Lemma encode_well_formed s :
  WellFormed s -> exists e, encodeURIComponent s = Some e.
Proof.
  induction 1 as [|c r L T _ [e IH]|c d r L T _ [e IH]].
  - exists []. reflexivity.
  - cbn [encodeURIComponent]. rewrite L, T, IH.
    destruct (unescaped c); eexists; reflexivity.
  - cbn [encodeURIComponent]. rewrite (lead_escaped c L), L, T, IH.
    eexists. reflexivity.
Qed.

Lemma template_none_iff t :
  mockup_template t = None <-> isWellFormed t = false.
Proof.
  split.
  - intros H. destruct (isWellFormed t) eqn:W; [|reflexivity].
    apply isWellFormed_WellFormed, encode_well_formed in W as [a Ha].
    rewrite (template_shape t a Ha) in H. discriminate.
  - apply template_ill_formed.
Qed.

Lemma opt_or_else_cases (P : jsstring -> Prop) o b :
  (forall t, o = Some t -> P t) -> P b -> P (opt_or_else o b).
Proof.
  intros Ho Hb. destruct o as [t|]; cbn [opt_or_else]; [|exact Hb].
  apply or_else_cases; [apply Ho; reflexivity|exact Hb].
Qed.

Lemma arte_WellFormed : WellFormed (lit "arte").
Proof. apply isWellFormed_WellFormed. reflexivity. Qed.

(** The title either builder settles on is well formed when the argument
    and the session title are. *)
Lemma final_titles_WellFormed title artTitle :
  (forall t, artTitle = Some t -> WellFormed t) ->
  WellFormed title ->
  WellFormed (or_else (opt_or_else artTitle title) (lit "arte")) /\
  WellFormed (V2.finalTitle title artTitle).
Proof.
  intros Ha Ht. split.
  - apply or_else_cases; [|exact arte_WellFormed].
    apply opt_or_else_cases; assumption.
  - unfold V2.finalTitle. apply or_else_cases; [|exact arte_WellFormed].
    apply opt_or_else_cases; [|exact Ht].
    intros t E. unfold V2.and_trim in E.
    destruct artTitle as [a|]; [|discriminate].
    pose proof (Ha a eq_refl) as Wa.
    destruct (truthy a); injection E as <-;
      [apply trim_WellFormed|]; exact Wa.
Qed.

Lemma template_some t :
  WellFormed t -> exists u, mockup_template t = Some u.
Proof.
  intros W. destruct (mockup_template t) as [u|] eqn:E; [eauto|].
  apply template_none_iff in E.
  apply WellFormed_isWellFormed in W. congruence.
Qed.

(** C2 (amended). For a title [T] and a session title that are well-formed
    UTF-16, the decoded [arte] parameter of the second implementation's
    [buildMockupUrl(T)] is [T.trim()], or the session title when that is
    empty, or "arte" when both are; the first implementation's
    [mockupUrl(T)] does the same with [T] itself, untrimmed. *)
Theorem arte_round_trip (title T : jsstring) :
  code_units T -> isWellFormed T = true ->
  code_units title -> isWellFormed title = true ->
  (exists u,
     V2.buildMockupUrl title (Some T) = Some u /\
     Query.param (lit "arte") u
     = Some (or_else (or_else (trim T) title) (lit "arte"))) /\
  (exists u,
     V1.mockupUrl title (Some T) = Some u /\
     Query.param (lit "arte") u
     = Some (or_else (or_else T title) (lit "arte"))).
Proof.
  intros HT WT%isWellFormed_WellFormed Ht Wt%isWellFormed_WellFormed.
  split.
  - unfold V2.buildMockupUrl. rewrite V2_finalTitle_some.
    apply template_arte;
      apply final_title_ok; auto using trim_units, trim_WellFormed.
  - unfold V1.mockupUrl, opt_or_else.
    apply template_arte; apply final_title_ok; assumption.
Qed.

Lemma arte_round_trip_witness :
  (code_units (lit " a&b=c ") /\ isWellFormed (lit " a&b=c ") = true /\
   code_units (lit "Caneca") /\ isWellFormed (lit "Caneca") = true) /\
  exists u,
    V2.buildMockupUrl (lit "Caneca") (Some (lit " a&b=c ")) = Some u /\
    Query.param (lit "arte") u = Some (lit "a&b=c").
Proof.
  assert (H1 : code_units (lit " a&b=c ")) by apply lit_units.
  assert (H2 : isWellFormed (lit " a&b=c ") = true) by reflexivity.
  assert (H3 : code_units (lit "Caneca")) by apply lit_units.
  assert (H4 : isWellFormed (lit "Caneca") = true) by reflexivity.
  split; [auto|].
  exact (proj1 (arte_round_trip (lit "Caneca") (lit " a&b=c ") H1 H2 H3 H4)).
Defined.

(** The first implementation keeps the leading space of a title, and
    neither implementation can build a URL for a lone surrogate. *)
Lemma arte_not_trimmed_or_not_built :
  (exists u,
     V1.mockupUrl [] (Some (lit " a&b")) = Some u /\
     Query.param (lit "arte") u = Some (lit " a&b") /\
     Query.param (lit "arte") u <> Some (trim (lit " a&b"))) /\
  V1.mockupUrl [] (Some [0xD800]) = None /\
  V2.buildMockupUrl [] (Some [0xD800]) = None.
Proof.
  split; [|split; vm_compute; reflexivity].
  eexists. split; [vm_compute; reflexivity|].
  split; vm_compute; [reflexivity|discriminate].
Qed.

(** ** The lifecycle *)

Section Lifecycle.

Variable host : Host.
Variable s : State.

Lemma opt_or_else_truthy o b :
  truthy b = true -> truthy (opt_or_else o b) = true.
Proof.
  intros Hb. destruct o as [[|x a]|]; cbn; auto.
Qed.

(** C9. Whatever the collaborators do, a run of start ends with the loading
    flag cleared, so the session is in none of the in-flight phases. *)
Theorem start_clears_loading :
  (loading (state (snd (V1.start host s))) = false /\
   phase (state (snd (V1.start host s))) <> Loading) /\
  (loading (state (snd (V2.start host s))) = false /\
   phase (state (snd (V2.start host s))) <> Loading).
Proof.
  assert (H : forall st, loading st = false -> phase st <> Loading).
  { intros st E. unfold phase. rewrite E.
    destruct (truthy_opt (errorMessage st)), (json_ok (resultInfo st));
      discriminate. }
  assert (H1 : loading (state (snd (V1.start host s))) = false)
    by (all_runs; reflexivity).
  assert (H2 : loading (state (snd (V2.start host s))) = false)
    by (all_runs; reflexivity).
  auto.
Qed.

(** C5. When the export does not complete, start ends in Idle with no error
    and no upload result, the title untouched; the only host call made is
    the export itself, so no upload is attempted, and nothing is thrown. *)
Theorem cancelled_export_is_noop r :
  requestExport host = inr r ->
  ExportResult.status r <> completed ->
  forall out, out = V1.start host s \/ out = V2.start host s ->
    phase (state (snd out)) = Idle /\
    errorMessage (state (snd out)) = None /\
    resultInfo (state (snd out)) = None /\
    title (state (snd out)) = title s /\
    calls (snd out) = [CallRequestExport] /\
    uploads (calls (snd out)) = [] /\
    settled (fst out) = Resolved.
Proof.
  intros He Hs out Hout.
  assert (Ha : ExportResult.status r = aborted)
    by (destruct (ExportResult.status r); congruence).
  destruct Hout; subst out; run; repeat split; reflexivity.
Qed.

(** C7. After an accepted upload, a preview-open call that throws or
    rejects leaves the phase at Success and the error message unset; the
    handler's promise still resolves. *)
Theorem preview_failure_keeps_success r resp json :
  reaches_response host r resp json ->
  resp_ok resp = true ->
  json_ok json = true ->
  (forall u, requestOpenExternalUrl host u <> Opened) ->
  forall out, out = V1.start host s \/ out = V2.start host s ->
    phase (state (snd out)) = Success /\
    errorMessage (state (snd out)) = None /\
    settled (fst out) = Resolved.
Proof.
  intros (He & Hc & ut & dt & Hu & Hd & Hf & Hj) Hr Hk Hopen out Hout.
  destruct Hout; subst out; all_runs; unfold phase; cbn; rewrite ?Hk;
    repeat split; reflexivity.
Qed.

(** C6. Every failure of steps 2 to 5 - the upload answered but was not
    accepted, or a collaborator threw - ends in Failed.  The message is the
    response's [error] when it is a non-empty string and the fixed text
    "Falha ao enviar a arte." otherwise; for a thrown value it is its
    [message] when non-empty and "Erro inesperado." otherwise.  It is never
    empty, and the handler's promise resolves: nothing is thrown on. *)
Theorem failure_carries_message f :
  fails host f ->
  forall out, out = V1.start host s \/ out = V2.start host s ->
    phase (state (snd out)) = Failed /\
    errorMessage (state (snd out)) =
      Some (match f with
            | UploadRejected json =>
                opt_or_else (json_error json) (lit "Falha ao enviar a arte.")
            | Raised e =>
                opt_or_else (message e) (lit "Erro inesperado.")
            end) /\
    truthy_opt (errorMessage (state (snd out))) = true /\
    settled (fst out) = Resolved /\
    unhandled (snd out) = [].
Proof.
  assert (T1 : forall o, truthy (opt_or_else o (lit "Falha ao enviar a arte."))
                         = true)
    by (intros; apply opt_or_else_truthy; reflexivity).
  assert (T2 : forall o, truthy (opt_or_else o (lit "Erro inesperado.")) = true)
    by (intros; apply opt_or_else_truthy; reflexivity).
  intros Hf out Hout.
  destruct Hf as [r resp json (He & Hc & ut & dt & Hu & Hd & Hf & Hj) Hno
                 | e He | r e He Hc Hu | r ut e He Hc Hu Hd
                 | r ut dt e He Hc Hu Hd Hf | r ut dt resp e He Hc Hu Hd Hf Hj];
    destruct Hout; subst out; run; unfold phase; cbn;
    rewrite ?T1, ?T2; repeat split; reflexivity.
Qed.

(** What a run with an accepted upload leaves, in either implementation. *)
Lemma accepted_run r resp json :
  reaches_response host r resp json ->
  resp_ok resp = true ->
  json_ok json = true ->
  (let w := snd (V1.start host s) in
   state w = {| loading := false; errorMessage := None; resultInfo := json;
                title := opt_or_else (ExportResult.title r) (lit "arte") |} /\
   opened (calls w) =
     match V1.mockupUrl (title s) (ExportResult.title r) with
     | Some u => [u]
     | None => []
     end) /\
  (let w := snd (V2.start host s) in
   state w = {| loading := false; errorMessage := None; resultInfo := json;
                title := opt_or_else (ExportResult.title r) (lit "arte") |} /\
   opened (calls w) =
     match V2.buildMockupUrl (title s) (ExportResult.title r) with
     | Some u => [u]
     | None => []
     end).
Proof.
  intros (He & Hc & ut & dt & Hu & Hd & Hf & Hj) Hr Hk.
  split; all_runs; repeat split; reflexivity.
Qed.

Lemma truthy_nonempty (t : jsstring) : t <> [] -> truthy t = true.
Proof. destruct t; [congruence|reflexivity]. Qed.

Lemma or_else_left a b : a <> [] -> or_else a b = a.
Proof. intros H. unfold or_else. rewrite truthy_nonempty by exact H. reflexivity. Qed.

Lemma trim_nonempty t : trim t <> [] -> t <> [].
Proof. intros H ->. apply H. reflexivity. Qed.

(** C1 (amended). A run that reaches a parsed response stores it as the
    last upload, accepted or not.  The phase is Success exactly when the
    HTTP status is a success and the parsed response has [ok] true; then
    the preview is asked to open the mockup URL (once, unless that URL
    cannot be built), and otherwise the preview is not called. *)
Theorem accepted_upload_enters_success r resp json :
  reaches_response host r resp json ->
  (let w := snd (V1.start host s) in
   resultInfo (state w) = json /\
   (phase (state w) = Success <->
    resp_ok resp = true /\ json_ok json = true) /\
   opened (calls w) =
     if resp_ok resp && json_ok json
     then match V1.mockupUrl (title s) (ExportResult.title r) with
          | Some u => [u]
          | None => []
          end
     else []) /\
  (let w := snd (V2.start host s) in
   resultInfo (state w) = json /\
   (phase (state w) = Success <->
    resp_ok resp = true /\ json_ok json = true) /\
   opened (calls w) =
     if resp_ok resp && json_ok json
     then match V2.buildMockupUrl (title s) (ExportResult.title r) with
          | Some u => [u]
          | None => []
          end
     else []).
Proof.
  assert (T : forall o, truthy (opt_or_else o (lit "Falha ao enviar a arte."))
                        = true)
    by (intros; apply opt_or_else_truthy; reflexivity).
  intros (He & Hc & ut & dt & Hu & Hd & Hf & Hj).
  destruct (resp_ok resp) eqn:Hr; destruct (json_ok json) eqn:Hk;
    (split; all_runs; unfold phase; cbn; rewrite ?Hk, ?T;
     (split; [reflexivity|]); (split; [|reflexivity]);
     (split; [intros E; try discriminate E; auto
             |intros [E1 E2]; try discriminate E1; try discriminate E2;
              reflexivity])).
Qed.

(** C3 (amended). When the HTTP status is a success and the parsed response
    has [ok] true, and the export's title and the title the session held
    before the run are well-formed UTF-16, the preview is asked to open
    exactly one URL.  For a non-empty title of the export the decoded
    [arte] parameter is that title, which is also the recorded one; the
    second implementation removes surrounding white space from it first.
    For an absent or empty title in a session that holds no title, [arte]
    and the recorded title are both "arte". *)
Theorem accepted_upload_opens_preview r resp json :
  reaches_response host r resp json ->
  resp_ok resp = true ->
  json_ok json = true ->
  (forall t, ExportResult.title r = Some t ->
             code_units t /\ isWellFormed t = true) ->
  (let w := snd (V1.start host s) in
   (isWellFormed (title s) = true -> exists u, opened (calls w) = [u]) /\
   (forall t, ExportResult.title r = Some t -> t <> [] ->
      exists u, opened (calls w) = [u] /\
                Query.param (lit "arte") u = Some t /\
                title (state w) = t) /\
   (truthy_opt (ExportResult.title r) = false -> title s = [] ->
      exists u, opened (calls w) = [u] /\
                Query.param (lit "arte") u = Some (lit "arte") /\
                title (state w) = lit "arte")) /\
  (let w := snd (V2.start host s) in
   (isWellFormed (title s) = true -> exists u, opened (calls w) = [u]) /\
   (forall t, ExportResult.title r = Some t -> trim t <> [] ->
      exists u, opened (calls w) = [u] /\
                Query.param (lit "arte") u = Some (trim t) /\
                title (state w) = t) /\
   (truthy_opt (ExportResult.title r) = false -> title s = [] ->
      exists u, opened (calls w) = [u] /\
                Query.param (lit "arte") u = Some (lit "arte") /\
                title (state w) = lit "arte")).
Proof.
  intros Hrun Hr Hk Hwf.
  destruct (accepted_run r resp json Hrun Hr Hk) as [[S1 O1] [S2 O2]].
  assert (A : exists u, mockup_template (lit "arte") = Some u /\
                        Query.param (lit "arte") u = Some (lit "arte")).
  { apply template_arte; [apply lit_units|exact arte_WellFormed]. }
  assert (F : isWellFormed (title s) = true ->
              WellFormed
                (or_else (opt_or_else (ExportResult.title r) (title s))
                         (lit "arte")) /\
              WellFormed (V2.finalTitle (title s) (ExportResult.title r))).
  { intros W. apply final_titles_WellFormed.
    - intros t Ht. apply isWellFormed_WellFormed, (Hwf t Ht).
    - apply isWellFormed_WellFormed, W. }
  cbv zeta. rewrite S1, S2, O1, O2. cbn [title]. clear S1 S2 O1 O2.
  split; (split; [|split]).
  - intros W. destruct (F W) as [W1 _].
    destruct (template_some _ W1) as [u Hm].
    exists u. unfold V1.mockupUrl. rewrite Hm. reflexivity.
  - intros t Ht Hne. destruct (Hwf t Ht) as [Hu Hw].
    apply isWellFormed_WellFormed in Hw.
    destruct (template_arte t Hu Hw) as (u & Hm & Hp).
    exists u. unfold V1.mockupUrl. rewrite Ht. cbn [opt_or_else].
    rewrite !(or_else_left t) by exact Hne. rewrite Hm. auto.
  - intros Hno Hs. destruct A as (u & Hm & Hp). exists u.
    unfold V1.mockupUrl. rewrite Hs.
    destruct (ExportResult.title r) as [[|x t]|]; try discriminate;
      cbn [opt_or_else or_else truthy]; rewrite Hm; auto.
  - intros W. destruct (F W) as [_ W2].
    destruct (template_some _ W2) as [u Hm].
    exists u. unfold V2.buildMockupUrl. rewrite Hm. reflexivity.
  - intros t Ht Hne. destruct (Hwf t Ht) as [Hu Hw].
    apply isWellFormed_WellFormed in Hw.
    destruct (template_arte (trim t) (trim_units t Hu) (trim_WellFormed t Hw))
      as (u & Hm & Hp).
    exists u. unfold V2.buildMockupUrl, V2.finalTitle, V2.and_trim.
    rewrite Ht. rewrite (truthy_nonempty t) by (apply trim_nonempty, Hne).
    cbn [opt_or_else]. rewrite !(or_else_left (trim t)) by exact Hne.
    rewrite (or_else_left t) by (apply trim_nonempty, Hne).
    rewrite Hm. auto.
  - intros Hno Hs. destruct A as (u & Hm & Hp). exists u.
    unfold V2.buildMockupUrl, V2.finalTitle, V2.and_trim. rewrite Hs.
    destruct (ExportResult.title r) as [[|x t]|]; try discriminate;
      cbn [opt_or_else or_else truthy]; rewrite Hm; auto.
Qed.

(** C4 (amended). A completed export records [result.title || "arte"] as
    the session title.  When both tokens are obtained, exactly one upload
    request follows; it carries the export result's own title (absent when
    the result has none), its files, the user token as bearer credential
    and the design token. *)
Theorem completed_export_records_title_then_uploads r :
  requestExport host = inr r ->
  ExportResult.status r = completed ->
  forall out, out = V1.start host s \/ out = V2.start host s ->
    title (state (snd out)) = opt_or_else (ExportResult.title r) (lit "arte") /\
    forall userToken designToken,
      getCanvaUserToken host = inr userToken ->
      getDesignToken host = inr designToken ->
      exists q,
        uploads (calls (snd out)) = [q] /\
        body_title q = ExportResult.title r /\
        body_files q = ExportResult.exportBlobs r /\
        authorization q = lit "Bearer " ++ userToken /\
        body_designToken q = designToken.
Proof.
  intros He Hc out Hout. split.
  - destruct Hout; subst out; all_runs; reflexivity.
  - intros ut dt Hu Hd. exists (export_request r ut dt).
    destruct Hout; subst out; all_runs; repeat split; reflexivity.
Qed.

End Lifecycle.

(** C8. From Success or Failed, reset gives Idle with the error message and
    the upload result null and the title empty. *)
Theorem reset_from_terminal s :
  phase s = Success \/ phase s = Failed ->
  phase (after reset s) = Idle /\
  errorMessage (after reset s) = None /\
  resultInfo (after reset s) = None /\
  title (after reset s) = [].
Proof.
  intros H.
  assert (L : loading s = false).
  { unfold phase in H. destruct (loading s); [|reflexivity].
    destruct H; discriminate. }
  unfold phase. run. rewrite L. repeat split; reflexivity.
Qed.

(** C10 (amended). Reset completes from every state and is idempotent.  It
    always clears the error message, the upload result and the title, and
    leaves the loading flag as it was: the phase afterwards is Idle unless
    the session was loading, and then it still is. *)
Theorem reset_total_idempotent s :
  fst (reset (fresh s)) = Normal tt /\
  errorMessage (after reset s) = None /\
  resultInfo (after reset s) = None /\
  title (after reset s) = [] /\
  loading (after reset s) = loading s /\
  phase (after reset s) = (if loading s then Loading else Idle) /\
  after reset (after reset s) = after reset s.
Proof.
  unfold phase. run. repeat split; reflexivity.
Qed.

(** ** The properties on sample runs *)

Lemma code_units_check s :
  forallb (fun c => (0 <=? c) && (c <? 65536)) s = true -> code_units s.
Proof.
  induction s as [|c s IH]; cbn [forallb]; [constructor|].
  intros [Hc Hs]%andb_true_iff. apply andb_true_iff in Hc as [H0 H1].
  constructor; [|exact (IH Hs)].
  apply Z.leb_le in H0. apply Z.ltb_lt in H1. split; assumption.
Qed.

Lemma sample_run_reaches_response t status_ok code json o :
  reaches_response
    (sample_host (inr (sample_export t)) (inr (http status_ok code json)) o)
    (sample_export t) (http status_ok code json) json.
Proof.
  split; [reflexivity|]. split; [reflexivity|].
  exists (lit "user-token"), (lit "design-token"). repeat split.
Defined.

Lemma cancelled_export_is_noop_witness :
  (requestExport cancel_host = inr dismissed_export /\
   ExportResult.status dismissed_export <> completed) /\
  phase (state (snd (V1.start cancel_host failed_session))) = Idle /\
  phase (state (snd (V2.start cancel_host failed_session))) = Idle.
Proof.
  assert (H1 : requestExport cancel_host = inr dismissed_export)
    by reflexivity.
  assert (H2 : ExportResult.status dismissed_export <> completed)
    by discriminate.
  split; [auto|]. split.
  - exact (proj1 (cancelled_export_is_noop cancel_host failed_session
                    dismissed_export H1 H2 _ (or_introl eq_refl))).
  - exact (proj1 (cancelled_export_is_noop cancel_host failed_session
                    dismissed_export H1 H2 _ (or_intror eq_refl))).
Defined.

Lemma preview_failure_keeps_success_witness :
  (forall u, requestOpenExternalUrl blocked_host u <> Opened) /\
  phase (state (snd (V1.start blocked_host initial))) = Success /\
  errorMessage (state (snd (V2.start blocked_host initial))) = None.
Proof.
  assert (H : forall u, requestOpenExternalUrl blocked_host u <> Opened)
    by (intros u; discriminate).
  split; [exact H|]. split.
  - exact (proj1 (preview_failure_keeps_success blocked_host initial _ _ _
                    (sample_run_reaches_response _ _ _ _ _)
                    eq_refl eq_refl H _ (or_introl eq_refl))).
  - exact (proj1 (proj2 (preview_failure_keeps_success blocked_host initial
                    _ _ _ (sample_run_reaches_response _ _ _ _ _)
                    eq_refl eq_refl H _ (or_intror eq_refl)))).
Defined.

Lemma failure_carries_message_witness :
  fails rejecting_host (UploadRejected (Some rejected)) /\
  phase (state (snd (V1.start rejecting_host initial))) = Failed /\
  errorMessage (state (snd (V2.start rejecting_host initial)))
  = Some arquivo_invalido.
Proof.
  assert (F : fails rejecting_host (UploadRejected (Some rejected))).
  { eapply fails_rejected.
    - apply sample_run_reaches_response.
    - reflexivity. }
  split; [exact F|]. split.
  - exact (proj1 (failure_carries_message rejecting_host initial _ F _
                    (or_introl eq_refl))).
  - exact (proj1 (proj2 (failure_carries_message rejecting_host initial _ F _
                    (or_intror eq_refl)))).
Defined.

Lemma accepted_upload_enters_success_witness :
  reaches_response happy_host (sample_export (Some logo_verao))
                   (http true 200 (Some accepted)) (Some accepted) /\
  phase (state (snd (V1.start happy_host initial))) = Success /\
  resultInfo (state (snd (V2.start happy_host initial))) = Some accepted.
Proof.
  split; [apply sample_run_reaches_response|]. split.
  - exact (proj2 (proj1 (proj2 (proj1 (accepted_upload_enters_success
                    happy_host initial _ _ _
                    (sample_run_reaches_response _ _ _ _ _)))))
                 (conj eq_refl eq_refl)).
  - exact (proj1 (proj2 (accepted_upload_enters_success happy_host
                    initial _ _ _ (sample_run_reaches_response _ _ _ _ _)))).
Defined.

(** A body with [ok: true] under HTTP status 500 ends in Failed. *)
Lemma parsed_ok_under_http_error_fails :
  reaches_response http_error_host (sample_export (Some logo_verao))
                   (http false 500 (Some accepted)) (Some accepted) /\
  json_ok (Some accepted) = true /\
  phase (state (snd (V1.start http_error_host initial))) <> Success /\
  phase (state (snd (V2.start http_error_host initial))) <> Success /\
  errorMessage (state (snd (V1.start http_error_host initial)))
  = Some (lit "Falha ao enviar a arte.").
Proof.
  split; [apply sample_run_reaches_response|].
  repeat split; try discriminate.
Qed.

Lemma accepted_upload_opens_preview_witness :
  (forall t, ExportResult.title (sample_export (Some logo_verao)) = Some t ->
             code_units t /\ isWellFormed t = true) /\
  (exists u, opened (calls (snd (V1.start happy_host initial))) = [u] /\
             Query.param (lit "arte") u = Some logo_verao /\
             title (state (snd (V1.start happy_host initial))) = logo_verao).
Proof.
  assert (H : forall t,
             ExportResult.title (sample_export (Some logo_verao)) = Some t ->
             code_units t /\ isWellFormed t = true).
  { intros t E. injection E as <-.
    split; [apply code_units_check|]; reflexivity. }
  split; [exact H|].
  refine (proj1 (proj2 (proj1 (accepted_upload_opens_preview happy_host
            initial _ _ _ (sample_run_reaches_response _ _ _ _ _)
            eq_refl eq_refl H)))
            logo_verao eq_refl _).
  discriminate.
Defined.

(** Under HTTP status 500 nothing is opened although the body says
    [ok: true]; for the title [" a"] the second implementation opens
    [arte=a] while it records [" a"]; and after a failed run whose title was
    a lone surrogate, an accepted export without a title ends in Success
    with nothing opened. *)
Lemma preview_not_opened_or_title_trimmed :
  (reaches_response http_error_host (sample_export (Some logo_verao))
                    (http false 500 (Some accepted)) (Some accepted) /\
   json_ok (Some accepted) = true /\
   opened (calls (snd (V1.start http_error_host initial))) = [] /\
   opened (calls (snd (V2.start http_error_host initial))) = []) /\
  (exists u,
     opened (calls (snd (V2.start padded_host initial))) = [u] /\
     Query.param (lit "arte") u = Some (lit "a") /\
     Query.param (lit "arte") u
     <> Some (title (state (snd (V2.start padded_host initial))))) /\
  (phase (state (snd (V1.start untitled_host
            (state (snd (V1.start lone_surrogate_rejecting_host initial))))))
   = Success /\
   opened (calls (snd (V1.start untitled_host
            (state (snd (V1.start lone_surrogate_rejecting_host initial))))))
   = []).
Proof.
  split; [|split].
  - split; [apply sample_run_reaches_response|]. repeat split.
  - eexists. split; [vm_compute; reflexivity|].
    split; vm_compute; [reflexivity|discriminate].
  - split; vm_compute; reflexivity.
Qed.

(** The accepted upload of "Logo Verão": Success, and the preview is opened
    with [arte=Logo%20Ver%C3%A3o]. *)
Example logo_verao_run :
  phase (state (snd (V2.start happy_host initial))) = Success /\
  opened (calls (snd (V2.start happy_host initial)))
  = [lit ("https://admin.levebrasa.com/internal/mockup"
          ++ "?modelo=2%20Canecas%20Padr%C3%A3o"
          ++ "&arte=Logo%20Ver%C3%A3o&cor=Branca")].
Proof. split; vm_compute; reflexivity. Qed.

(** A retry after a failed run: the export now has no title, "arte" is
    recorded, and the preview is opened for the earlier run's title. *)
Example retry_without_title_previews_earlier_title :
  exists u,
    opened (calls (snd (V2.start untitled_host failed_session))) = [u] /\
    Query.param (lit "arte") u = Some (lit "Caneca") /\
    title (state (snd (V2.start untitled_host failed_session))) = lit "arte".
Proof.
  eexists. split; [vm_compute; reflexivity|].
  split; vm_compute; reflexivity.
Qed.

Lemma completed_export_records_title_then_uploads_witness :
  (requestExport happy_host = inr (sample_export (Some logo_verao)) /\
   ExportResult.status (sample_export (Some logo_verao)) = completed) /\
  title (state (snd (V1.start happy_host initial))) = logo_verao /\
  (exists q, uploads (calls (snd (V2.start happy_host initial))) = [q] /\
             body_title q = Some logo_verao).
Proof.
  split; [split; reflexivity|]. split.
  - exact (proj1 (completed_export_records_title_then_uploads happy_host
                    initial _ eq_refl eq_refl _ (or_introl eq_refl))).
  - destruct (proj2 (completed_export_records_title_then_uploads happy_host
                       initial _ eq_refl eq_refl _ (or_intror eq_refl))
                    _ _ eq_refl eq_refl) as (q & Hq & Ht & _).
    exists q. split; [exact Hq|exact Ht].
Defined.

(** For an export without a title, "arte" is recorded and the request
    carries no title. *)
Lemma upload_title_is_not_recorded_title :
  title (state (snd (V1.start untitled_host initial))) = lit "arte" /\
  map body_title (uploads (calls (snd (V1.start untitled_host initial))))
  = [None] /\
  title (state (snd (V2.start untitled_host initial))) = lit "arte" /\
  map body_title (uploads (calls (snd (V2.start untitled_host initial))))
  = [None].
Proof. repeat split. Qed.

Lemma reset_from_terminal_witness :
  (phase failed_session = Success \/ phase failed_session = Failed) /\
  phase (after reset failed_session) = Idle /\
  title (after reset failed_session) = [].
Proof.
  assert (H : phase failed_session = Success \/ phase failed_session = Failed)
    by (right; reflexivity).
  split; [exact H|]. split.
  - exact (proj1 (reset_from_terminal failed_session H)).
  - exact (proj2 (proj2 (proj2 (reset_from_terminal failed_session H)))).
Defined.

(** Reset while loading does not give Idle. *)
Lemma reset_while_loading_is_not_idle :
  phase loading_session = Loading /\
  phase (after reset loading_session) <> Idle.
Proof. split; [reflexivity|discriminate]. Qed.

(* ================================================================= *)
(** * Further properties *)

(** ** The mockup URL as a whole *)

(** X2. Both URL builders throw exactly when the title they settle on has an
    unpaired surrogate. *)
Theorem mockup_url_throws_iff_ill_formed title artTitle :
  (V1.mockupUrl title artTitle = None <->
   isWellFormed (or_else (opt_or_else artTitle title) (lit "arte")) = false)
  /\
  (V2.buildMockupUrl title artTitle = None <->
   isWellFormed (V2.finalTitle title artTitle) = false).
Proof. split; apply template_none_iff. Qed.

Lemma template_pairs t a :
  encodeURIComponent t = Some a ->
  forallb is_plain a = true ->
  exists u, mockup_template t = Some u /\
            Query.pairs u
            = [(lit "modelo", Some (lit "2%20Canecas%20Padr%C3%A3o"));
               (lit "arte", Some a);
               (lit "cor", Some (lit "Branca"))].
Proof.
  intros Ha Hp. destruct (plain_free a Hp) as (F1 & F2 & F3).
  eexists. split; [apply template_shape; exact Ha|].
  unfold Query.pairs.
  rewrite cut_app_sep by reflexivity. cbn [snd].
  rewrite split_app_sep by reflexivity.
  rewrite split_app_sep.
  2:{ unfold free_of. rewrite forallb_app. fold (free_of 0x26 a).
      rewrite F1. reflexivity. }
  reflexivity.
Qed.

Lemma template_parameters t :
  code_units t -> isWellFormed t = true ->
  exists u,
    mockup_template t = Some u /\
    map fst (Query.pairs u) = [lit "modelo"; lit "arte"; lit "cor"] /\
    Query.param (lit "modelo") u = Some modelo /\
    Query.param (lit "arte") u = Some t /\
    Query.param (lit "cor") u = Some cor.
Proof.
  intros Hu Hw%isWellFormed_WellFormed.
  destruct (encode_decode_items t Hu Hw) as (a & its & Ha & Hx & Hd).
  destruct (template_pairs t a Ha (encode_plain t Hu Hw a Ha)) as (u & Hm & Hp).
  exists u. split; [exact Hm|].
  unfold Query.param, Query.raw_param. rewrite Hp.
  split; [reflexivity|]. split; [vm_compute; reflexivity|].
  split; [|vm_compute; reflexivity].
  cbn [Query.lookup]. 
  change (str_eqb (lit "modelo") (lit "arte")) with false.
  change (str_eqb (lit "arte") (lit "arte")) with true.
  cbv iota. unfold decodeURIComponent. rewrite Hx. exact Hd.
Qed.

(** X1. The URL of either builder has exactly the parameters [modelo], [arte]
    and [cor], in this order; decoded, they are the two constants and the
    final title [t], whatever delimiters [t] contains. *)
Theorem mockup_url_parameters title artTitle t :
  code_units t -> isWellFormed t = true ->
  (or_else (opt_or_else artTitle title) (lit "arte") = t ->
   exists u,
     V1.mockupUrl title artTitle = Some u /\
     map fst (Query.pairs u) = [lit "modelo"; lit "arte"; lit "cor"] /\
     Query.param (lit "modelo") u = Some modelo /\
     Query.param (lit "arte") u = Some t /\
     Query.param (lit "cor") u = Some cor) /\
  (V2.finalTitle title artTitle = t ->
   exists u,
     V2.buildMockupUrl title artTitle = Some u /\
     map fst (Query.pairs u) = [lit "modelo"; lit "arte"; lit "cor"] /\
     Query.param (lit "modelo") u = Some modelo /\
     Query.param (lit "arte") u = Some t /\
     Query.param (lit "cor") u = Some cor).
Proof.
  intros Hu Hw.
  split; intros E; unfold V1.mockupUrl, V2.buildMockupUrl; rewrite E;
    apply template_parameters; assumption.
Qed.

Lemma ill_formed_nonempty t : isWellFormed t = false -> t <> [].
Proof. intros H ->. discriminate. Qed.

(** ** More on a run of start *)

Section MoreLifecycle.

Variable host : Host.
Variable s : State.

(** X3. The promise of [handleExportAndSend] never rejects, whatever the
    collaborators do and whatever state the run starts from. *)
Theorem start_always_resolves :
  settled (fst (V1.start host s)) = Resolved /\
  settled (fst (V2.start host s)) = Resolved.
Proof. split; all_runs; reflexivity. Qed.

(** X4. The second implementation awaits the preview call inside its [try]:
    no run of start leaves a rejected promise without a handler. *)
Theorem V2_start_leaves_no_unhandled_rejection :
  unhandled (snd (V2.start host s)) = [].
Proof. all_runs; reflexivity. Qed.

(** X5. The first implementation drops the promise of the preview call: a run
    leaves an unhandled rejection exactly when the upload was accepted, the
    URL was built and the host's promise rejects. *)
Theorem V1_unhandled_rejection_iff :
  unhandled (snd (V1.start host s)) <> [] <->
  exists r resp json u e,
    reaches_response host r resp json /\
    resp_ok resp = true /\ json_ok json = true /\
    V1.mockupUrl (title s) (ExportResult.title r) = Some u /\
    requestOpenExternalUrl host u = OpenRejects e.
Proof.
  split.
  - all_runs; intros H; try (exfalso; apply H; reflexivity).
    match goal with
    | Hb : (resp_ok ?p && json_ok ?j)%bool = true |- _ =>
        apply andb_true_iff in Hb as [? ?]
    end.
    do 5 eexists. split; [|eauto].
    split; [eassumption|]. split; [assumption|]. eauto 10.
  - intros (r & resp & json & u & e & (He & Hc & ut & dt & Hu & Hd & Hf & Hj)
            & Hr & Hk & Hm & Ho).
    run. rewrite Hm. run. rewrite Ho. cbn. discriminate.
Qed.


Lemma failed_run f :
  fails host f ->
  phase (state (snd (V1.start host s))) = Failed /\
  phase (state (snd (V2.start host s))) = Failed.
Proof.
  assert (T1 : forall o, truthy (opt_or_else o (lit "Falha ao enviar a arte."))
                         = true)
    by (intros; apply opt_or_else_truthy; reflexivity).
  assert (T2 : forall o, truthy (opt_or_else o (lit "Erro inesperado.")) = true)
    by (intros; apply opt_or_else_truthy; reflexivity).
  intros Hf.
  destruct Hf as [r resp json (He & Hc & ut & dt & Hu & Hd & Hf & Hj) Hno
                 | e He | r e He Hc Hu | r ut e He Hc Hu Hd
                 | r ut dt e He Hc Hu Hd Hf | r ut dt resp e He Hc Hu Hd Hf Hj];
    split; run; unfold phase; cbn; rewrite ?T1, ?T2; reflexivity.
Qed.

Lemma dismissed_run :
  dismissed host ->
  phase (state (snd (V1.start host s))) = Idle /\
  phase (state (snd (V2.start host s))) = Idle.
Proof.
  intros (r & He & Hs).
  assert (Ha : ExportResult.status r = aborted)
    by (destruct (ExportResult.status r); congruence).
  split; run; reflexivity.
Qed.

Lemma accepted_phase :
  accepted_upload host ->
  phase (state (snd (V1.start host s))) = Success /\
  phase (state (snd (V2.start host s))) = Success.
Proof.
  intros (r & resp & json & Hrun & Hr & Hk).
  destruct (accepted_run host s r resp json Hrun Hr Hk) as [[S1 _] [S2 _]].
  cbv zeta in S1, S2. rewrite S1, S2. unfold phase. cbn. rewrite Hk. auto.
Qed.

(** Every run is of exactly one of the three kinds. *)
Lemma run_kinds :
  dismissed host \/ (exists f, fails host f) \/ accepted_upload host.
Proof.
  unfold dismissed, accepted_upload.
  destruct (requestExport host) as [e|r] eqn:He;
    [right; left; eauto using fails|].
  destruct (ExportResult.status r) eqn:Hc;
    [|left; exists r; split; [reflexivity|congruence]].
  destruct (getCanvaUserToken host) as [e|ut] eqn:Hu;
    [right; left; eauto using fails|].
  destruct (getDesignToken host) as [e|dt] eqn:Hd;
    [right; left; eauto using fails|].
  destruct (fetch host (export_request r ut dt)) as [e|resp] eqn:Hf;
    [right; left; eauto using fails|].
  destruct (resp_json resp) as [e|json] eqn:Hj;
    [right; left; eauto using fails|].
  assert (R : reaches_response host r resp json).
  { split; [exact He|]. split; [exact Hc|]. eauto 10. }
  destruct (resp_ok resp && json_ok json)%bool eqn:Hb.
  - apply andb_true_iff in Hb as [? ?]. right; right. eauto 10.
  - right; left. eauto using fails.
Qed.

(** X6. A run ends in Idle exactly when the export did not complete. *)
Theorem start_idle_iff_dismissed :
  (phase (state (snd (V1.start host s))) = Idle <-> dismissed host) /\
  (phase (state (snd (V2.start host s))) = Idle <-> dismissed host).
Proof.
  split; (split; [|intros D; apply (dismissed_run D)]); intros H;
    destruct run_kinds as [D|[[f F]|A]]; try exact D.
  - destruct (failed_run f F). congruence.
  - destruct (accepted_phase A). congruence.
  - destruct (failed_run f F). congruence.
  - destruct (accepted_phase A). congruence.
Qed.

(** X7. A run ends in Success exactly when it reached a response that passes
    [resp.ok && json?.ok]. *)
Theorem start_success_iff_accepted :
  (phase (state (snd (V1.start host s))) = Success <-> accepted_upload host) /\
  (phase (state (snd (V2.start host s))) = Success <-> accepted_upload host).
Proof.
  split; (split; [|intros A; apply (accepted_phase A)]); intros H;
    destruct run_kinds as [D|[[f F]|A]]; try exact A.
  - destruct (dismissed_run D). congruence.
  - destruct (failed_run f F). congruence.
  - destruct (dismissed_run D). congruence.
  - destruct (failed_run f F). congruence.
Qed.

(** X8. A run ends in Failed exactly when a collaborator of steps 2 to 5
    threw or the response did not pass [resp.ok && json?.ok]. *)
Theorem start_failed_iff_fails :
  (phase (state (snd (V1.start host s))) = Failed <-> exists f, fails host f)
  /\
  (phase (state (snd (V2.start host s))) = Failed <-> exists f, fails host f).
Proof.
  split; (split; [|intros [f F]; apply (failed_run f F)]); intros H;
    destruct run_kinds as [D|[[f F]|A]]; eauto.
  - destruct (dismissed_run D). congruence.
  - destruct (accepted_phase A). congruence.
  - destruct (dismissed_run D). congruence.
  - destruct (accepted_phase A). congruence.
Qed.



(** X9. A run calls the collaborators in one fixed order - export, user
    token, design token, upload, preview - each at most once and none
    before the ones ahead of it. *)
Theorem start_call_sequence :
  forall out, out = V1.start host s \/ out = V2.start host s ->
    calls (snd out) = [CallRequestExport] \/
    calls (snd out) = [CallRequestExport; CallGetCanvaUserToken] \/
    calls (snd out)
    = [CallRequestExport; CallGetCanvaUserToken; CallGetDesignToken] \/
    (exists q,
       calls (snd out)
       = [CallRequestExport; CallGetCanvaUserToken; CallGetDesignToken;
          CallFetch q]) \/
    (exists q u,
       calls (snd out)
       = [CallRequestExport; CallGetCanvaUserToken; CallGetDesignToken;
          CallFetch q; CallOpenExternalUrl u]).
Proof.
  intros out [->| ->]; all_runs; eauto 10.
Qed.


(** X11. For every host and starting state the two implementations leave
    the same state, complete the same way and send the same upload. *)
Theorem implementations_agree_on_state :
  state (snd (V1.start host s)) = state (snd (V2.start host s)) /\
  fst (V1.start host s) = fst (V2.start host s) /\
  uploads (calls (snd (V1.start host s)))
  = uploads (calls (snd (V2.start host s))).
Proof. all_runs; repeat split; reflexivity. Qed.

(** X12. When the export's title has no white space around it, the two
    implementations also make the same host calls, preview URL included. *)
Theorem implementations_agree_on_calls :
  (forall r t, requestExport host = inr r ->
               ExportResult.title r = Some t -> trim t = t) ->
  calls (snd (V1.start host s)) = calls (snd (V2.start host s)).
Proof.
  intros H.
  assert (E : forall r, requestExport host = inr r ->
                V2.buildMockupUrl (title s) (ExportResult.title r)
                = V1.mockupUrl (title s) (ExportResult.title r)).
  { intros r Hr. unfold V2.buildMockupUrl, V2.finalTitle, V2.and_trim,
      V1.mockupUrl.
    destruct (ExportResult.title r) as [t|] eqn:Ht; [|reflexivity].
    rewrite (H r t Hr Ht). destruct (truthy t); reflexivity. }
  run. destruct (requestExport host) as [e|r] eqn:He; [reflexivity|].
  specialize (E r eq_refl). run. rewrite E.
  repeat (split_outcome; run); reflexivity.
Qed.

(** X13. The "open mockup" button of the first implementation never
    changes the state and never throws, whatever the host does; it calls
    the preview once, with the URL of the session title, unless that URL
    cannot be built. *)
Theorem open_click_swallows_errors :
  state (snd (V1.openMockupClick (title s) host (fresh s))) = s /\
  fst (V1.openMockupClick (title s) host (fresh s)) = Normal tt /\
  calls (snd (V1.openMockupClick (title s) host (fresh s)))
  = match V1.mockupUrl (title s) None with
    | Some u => [CallOpenExternalUrl u]
    | None => []
    end.
Proof.
  unfold V1.openMockupClick. run.
  destruct (V1.mockupUrl (title s) None) as [u|]; run;
    [destruct (requestOpenExternalUrl host u)|]; run; destruct s; auto.
Qed.

(** X14. [openMockup] of the second implementation has no [catch]: it
    calls the preview once with the memoised URL, leaves the state alone, and its
    promise resolves exactly when the host opens the URL. *)
Theorem openMockup_rejects_when_blocked u :
  state (snd (V2.openMockup u host (fresh s))) = s /\
  calls (snd (V2.openMockup u host (fresh s))) = [CallOpenExternalUrl u] /\
  (settled (fst (V2.openMockup u host (fresh s))) = Resolved <->
   requestOpenExternalUrl host u = Opened).
Proof.
  unfold V2.openMockup. run.
  destruct (requestOpenExternalUrl host u); run; destruct s;
    repeat split; try reflexivity; discriminate.
Qed.


(** What a completed export leaves as title, whatever follows. *)
Lemma completed_run_title r :
  requestExport host = inr r ->
  ExportResult.status r = completed ->
  title (state (snd (V1.start host s)))
  = opt_or_else (ExportResult.title r) (lit "arte") /\
  title (state (snd (V2.start host s)))
  = opt_or_else (ExportResult.title r) (lit "arte").
Proof. intros He Hc. split; all_runs; reflexivity. Qed.

(** X15. After an accepted upload the "open mockup" button opens the recorded
    title as it is. *)
Theorem manual_preview_opens_recorded_title r resp json t :
  reaches_response host r resp json ->
  resp_ok resp = true ->
  json_ok json = true ->
  ExportResult.title r = Some t ->
  t <> [] -> code_units t -> isWellFormed t = true ->
  (let s1 := state (snd (V1.start host s)) in
   buttons s1 = [OnOpenMockup; OnReset] /\
   exists u, V1.mockupUrl (title s1) None = Some u /\
             Query.param (lit "arte") u = Some t) /\
  (let s2 := state (snd (V2.start host s)) in
   buttons s2 = [OnOpenMockup; OnReset] /\
   exists u, V2.mockupUrl (title s2) = Some u /\
             Query.param (lit "arte") u = Some t).
Proof.
  intros Hrun Hr Hk Ht Hne Hu Hw.
  destruct (accepted_run host s r resp json Hrun Hr Hk) as [[S1 _] [S2 _]].
  cbv zeta in *. rewrite S1, S2. cbn [title]. rewrite Ht. cbn [opt_or_else].
  rewrite (or_else_left t) by exact Hne.
  destruct (template_arte t Hu (isWellFormed_WellFormed t Hw)) as (u & Hm & Hp).
  assert (B : forall ti, buttons {| loading := false; errorMessage := None;
                                    resultInfo := json; title := ti |}
                         = [OnOpenMockup; OnReset]).
  { intros ti. unfold buttons, phase. cbn. rewrite Hk. reflexivity. }
  split; (split; [apply B|]); exists u; split; try exact Hp.
  - unfold V1.mockupUrl. cbn [opt_or_else].
    rewrite (or_else_left t) by exact Hne. exact Hm.
  - unfold V2.mockupUrl, V2.buildMockupUrl, V2.finalTitle, V2.and_trim.
    cbn [opt_or_else]. rewrite (or_else_left t) by exact Hne. exact Hm.
Qed.

(** X16. A completed export whose title has an unpaired surrogate leaves the
    second implementation unable to render. *)
Theorem ill_formed_title_breaks_render r t :
  requestExport host = inr r ->
  ExportResult.status r = completed ->
  ExportResult.title r = Some t ->
  isWellFormed t = false ->
  V2.render (state (snd (V2.start host s))) = None /\
  V1.render (state (snd (V1.start host s)))
  = Some (buttons (state (snd (V1.start host s)))).
Proof.
  intros He Hc Ht Hw. split; [|reflexivity].
  destruct (completed_run_title r He Hc) as [_ T2].
  unfold V2.render, V2.mockupUrl, V2.buildMockupUrl. rewrite T2, Ht.
  cbn [opt_or_else]. rewrite (or_else_left t) by (apply ill_formed_nonempty, Hw).
  unfold V2.finalTitle, V2.and_trim. cbn [opt_or_else].
  rewrite (or_else_left t) by (apply ill_formed_nonempty, Hw).
  rewrite (template_ill_formed t Hw). reflexivity.
Qed.

End MoreLifecycle.

(** ** Sessions of clicks *)

Lemma lit_nonempty_or_else o (b : string) :
  lit b <> [] -> opt_or_else o (lit b) <> [].
Proof.
  intros Hb. destruct o as [[|x a]|]; cbn; [exact Hb|discriminate|exact Hb].
Qed.

Lemma start_at_rest host s :
  at_rest (state (snd (V1.start host s))) /\
  at_rest (state (snd (V2.start host s))).
Proof.
  assert (N1 : forall o, opt_or_else o (lit "Falha ao enviar a arte.") <> [])
    by (intros; apply lit_nonempty_or_else; discriminate).
  assert (N2 : forall o, opt_or_else o (lit "Erro inesperado.") <> [])
    by (intros; apply lit_nonempty_or_else; discriminate).
  assert (N3 : forall o, opt_or_else o (lit "arte") <> [])
    by (intros; apply lit_nonempty_or_else; discriminate).
  unfold at_rest.
  split; all_runs;
    (split; [reflexivity|]; split;
     [intros m E; try discriminate; injection E as <-; auto
     |intros E; auto; exfalso; apply E; reflexivity]).
Qed.

Lemma reset_at_rest s : loading s = false -> at_rest (after reset s).
Proof.
  intros L. unfold at_rest. run. rewrite L.
  split; [reflexivity|]. split; [discriminate|]. intros E. congruence.
Qed.

Lemma open_click_state host s h :
  h = OnOpenMockup ->
  state (snd (V1.click host s h)) = s /\ state (snd (V2.click host s h)) = s.
Proof.
  intros ->. unfold V1.click, V2.click, V1.openMockupClick, V2.openMockup.
  split; run.
  - destruct (V1.mockupUrl (title s) None) as [u|]; run;
      [destruct (requestOpenExternalUrl host u)|]; run; destruct s; reflexivity.
  - destruct (V2.mockupUrl (title s)) as [u|]; run;
      [destruct (requestOpenExternalUrl host u)|]; run; destruct s; reflexivity.
Qed.

Lemma click_at_rest host s h :
  at_rest s ->
  at_rest (state (snd (V1.click host s h))) /\
  at_rest (state (snd (V2.click host s h))).
Proof.
  intros R. destruct h.
  - apply start_at_rest.
  - split; apply reset_at_rest, R.
  - destruct (open_click_state host s OnOpenMockup eq_refl) as [E1 E2].
    rewrite E1, E2. auto.
Qed.

Lemma reachable_at_rest s :
  reachable V1.render V1.click s \/ reachable V2.render V2.click s ->
  at_rest s.
Proof.
  intros [H|H]; induction H as [|s s' _ IH St].
  - repeat split; [discriminate|intros E; exfalso; apply E; reflexivity].
  - destruct St as [host s bs h _ _]. apply (click_at_rest host s h IH).
  - repeat split; [discriminate|intros E; exfalso; apply E; reflexivity].
  - destruct St as [host s bs h _ _]. apply (click_at_rest host s h IH).
Qed.

Lemma at_rest_not_loading s : at_rest s -> phase s <> Loading.
Proof.
  intros (L & _). unfold phase. rewrite L.
  destruct (truthy_opt (errorMessage s)), (json_ok (resultInfo s));
    discriminate.
Qed.

(** X17. Between clicks nothing is loading, an error message is never
    empty, and an upload result is never held without a title. *)
Theorem session_at_rest s :
  reachable V1.render V1.click s \/ reachable V2.render V2.click s ->
  at_rest s /\ phase s <> Loading.
Proof.
  intros H. pose proof (reachable_at_rest s H) as R.
  split; [exact R|apply at_rest_not_loading, R].
Qed.

(** X18. The session is never left without a button: the first
    implementation always renders one, the second does whenever the title
    it holds is well formed. *)
Theorem session_never_stuck s :
  reachable V1.render V1.click s \/ reachable V2.render V2.click s ->
  exists h bs,
    V1.render s = Some (h :: bs) /\
    (isWellFormed (title s) = true -> V2.render s = Some (h :: bs)).
Proof.
  intros H. pose proof (at_rest_not_loading s (reachable_at_rest s H)) as P.
  assert (B : exists h bs, buttons s = h :: bs).
  { unfold buttons. destruct (phase s); [eauto|congruence|eauto|eauto]. }
  destruct B as (h & bs & E). exists h, bs. unfold V1.render, V2.render.
  rewrite E. split; [reflexivity|]. intros W.
  destruct (V2.mockupUrl (title s)) eqn:M; [reflexivity|].
  exfalso. unfold V2.mockupUrl, V2.buildMockupUrl in M.
  apply (proj1 (template_none_iff _)) in M.
  unfold V2.finalTitle, V2.and_trim in M. cbn [opt_or_else] in M.
  destruct (title s) as [|c r]; [vm_compute in M; discriminate|].
  unfold or_else in M. cbn [truthy] in M. congruence.
Qed.

(** X19. In a session, a click on a reset button puts the state back to
    the initial one. *)
Theorem reset_returns_to_initial s :
  reachable V1.render V1.click s \/ reachable V2.render V2.click s ->
  after reset s = initial.
Proof.
  intros H. destruct (reachable_at_rest s H) as (L & _).
  run. rewrite L. reflexivity.
Qed.

(** ** Formatting sizes *)

Import Format.

Lemma Qle_bool_false a b : Qle_bool a b = false -> (b < a)%Q.
Proof.
  intros H. apply Qnot_le_lt. intros L. apply Qle_bool_iff in L. congruence.
Qed.

Lemma div_1024_ge a : (1024 <= a)%Q -> (1 <= a / 1024)%Q.
Proof.
  intros H. apply Qle_shift_div_l; [reflexivity|]. lra.
Qed.

Lemma decimals_cases v :
  ((100 <= v)%Q /\ decimals v = 0%nat) \/
  ((10 <= v)%Q /\ (v < 100)%Q /\ decimals v = 1%nat) \/
  ((v < 10)%Q /\ decimals v = 2%nat).
Proof.
  unfold decimals.
  destruct (Qle_bool 100 v) eqn:E1;
    [left; split; [apply Qle_bool_iff, E1|reflexivity]|].
  apply Qle_bool_false in E1.
  destruct (Qle_bool 10 v) eqn:E2.
  - right; left. apply Qle_bool_iff in E2. auto.
  - right; right. apply Qle_bool_false in E2. auto.
Qed.

(** What the loop of [formatBytes] leaves: the unit index and the number
    to print. *)
Lemma scale_cases x :
  exists v i,
    scale 3 x 0 = (v, i) /\
    (i <= 3)%nat /\
    (v == x / inject_Z (1024 ^ Z.of_nat i))%Q /\
    (i = 3%nat \/ (v < 1024)%Q) /\
    (i = 0%nat \/ (1 <= v)%Q).
Proof.
  cbn [scale].
  destruct (Qle_bool 1024 x) eqn:E1.
  2:{ apply Qle_bool_false in E1. exists x, 0%nat.
      split; [reflexivity|]. split; [lia|]. split; [cbn; field|]. auto. }
  apply Qle_bool_iff in E1.
  destruct (Qle_bool 1024 (x / 1024)) eqn:E2.
  2:{ apply Qle_bool_false in E2. exists (x / 1024)%Q, 1%nat.
      split; [reflexivity|]. split; [lia|]. split; [cbn; field|].
      split; [right; exact E2|right; apply div_1024_ge; assumption]. }
  apply Qle_bool_iff in E2.
  destruct (Qle_bool 1024 (x / 1024 / 1024)) eqn:E3.
  2:{ apply Qle_bool_false in E3. exists (x / 1024 / 1024)%Q, 2%nat.
      split; [reflexivity|]. split; [lia|]. split; [cbn; field|].
      split; [right; exact E3|right; apply div_1024_ge; assumption]. }
  apply Qle_bool_iff in E3.
  exists (x / 1024 / 1024 / 1024)%Q, 3%nat.
  split; [reflexivity|]. split; [lia|]. split; [cbn; field|].
  split; [left; reflexivity|right; apply div_1024_ge; assumption].
Qed.

(** X20. For a finite size, [formatBytes] returns what [toFixed] prints for
    [v = value / 1024^i] with [f] decimals, a space, and entry [i] of B,
    KB, MB, GB.  [v] is below 1024 unless the unit is GB and at least 1
    unless it is B; [f] is 0 for [v >= 100], 1 for [10 <= v < 100] and 2
    below 10. *)
Theorem formatBytes_mantissa (toFixed : Q -> nat -> jsstring) x :
  exists v i f unit,
    (v == x / inject_Z (1024 ^ Z.of_nat i))%Q /\
    nth_error [lit "B"; lit "KB"; lit "MB"; lit "GB"] i = Some unit /\
    (i = 3%nat \/ (v < 1024)%Q) /\
    (i = 0%nat \/ (1 <= v)%Q) /\
    (((100 <= v)%Q /\ f = 0%nat) \/
     ((10 <= v)%Q /\ (v < 100)%Q /\ f = 1%nat) \/
     ((v < 10)%Q /\ f = 2%nat)) /\
    formatBytes toFixed (Some x) = toFixed v f ++ lit " " ++ unit.
Proof.
  destruct (scale_cases x) as (v & i & Hs & Hi & Hv & Hhi & Hlo).
  assert (U : exists unit,
             nth_error [lit "B"; lit "KB"; lit "MB"; lit "GB"] i = Some unit
             /\ nth i units (lit "undefined") = unit).
  { destruct i as [|[|[|[|i]]]]; [eexists; split; reflexivity..|lia]. }
  destruct U as (unit & Hn & Hu).
  exists v, i, (decimals v), unit.
  split; [exact Hv|]. split; [exact Hn|]. split; [exact Hhi|].
  split; [exact Hlo|]. split; [apply decimals_cases|].
  unfold formatBytes. cbn [units List.length Nat.sub]. rewrite Hs, Hu.
  reflexivity.
Qed.

(** ** The further properties on sample runs *)

Lemma mockup_url_parameters_witness :
  (code_units (lit "a&b=c") /\ isWellFormed (lit "a&b=c") = true) /\
  exists u,
    V2.buildMockupUrl (lit "Caneca") (Some (lit " a&b=c ")) = Some u /\
    map fst (Query.pairs u) = [lit "modelo"; lit "arte"; lit "cor"] /\
    Query.param (lit "modelo") u = Some modelo /\
    Query.param (lit "arte") u = Some (lit "a&b=c") /\
    Query.param (lit "cor") u = Some cor.
Proof.
  assert (H1 : code_units (lit "a&b=c")) by apply lit_units.
  assert (H2 : isWellFormed (lit "a&b=c") = true) by reflexivity.
  split; [auto|].
  exact (proj2 (mockup_url_parameters (lit "Caneca") (Some (lit " a&b=c "))
                  (lit "a&b=c") H1 H2) eq_refl).
Defined.

Lemma start_call_sequence_witness :
  exists q u,
    calls (snd (V1.start happy_host initial))
    = [CallRequestExport; CallGetCanvaUserToken; CallGetDesignToken;
       CallFetch q; CallOpenExternalUrl u].
Proof.
  destruct (start_call_sequence happy_host initial _ (or_introl eq_refl))
    as [H|[H|[H|[[q H]|H]]]]; try discriminate H. exact H.
Defined.


Lemma implementations_agree_on_calls_witness :
  (forall r t, requestExport happy_host = inr r ->
               ExportResult.title r = Some t -> trim t = t) /\
  calls (snd (V1.start happy_host initial))
  = calls (snd (V2.start happy_host initial)).
Proof.
  assert (H : forall r t, requestExport happy_host = inr r ->
                          ExportResult.title r = Some t -> trim t = t).
  { intros r t Hr Ht. injection Hr as <-. injection Ht as <-. reflexivity. }
  split; [exact H|].
  exact (implementations_agree_on_calls happy_host initial H).
Defined.

Lemma manual_preview_opens_recorded_title_witness :
  (lit " a" <> [] /\ code_units (lit " a") /\
   isWellFormed (lit " a") = true) /\
  exists u,
    V2.mockupUrl (title (state (snd (V2.start padded_host initial)))) = Some u
    /\ Query.param (lit "arte") u = Some (lit " a").
Proof.
  assert (H1 : lit " a" <> []) by discriminate.
  assert (H2 : code_units (lit " a")) by apply lit_units.
  assert (H3 : isWellFormed (lit " a") = true) by reflexivity.
  split; [auto|].
  exact (proj2 (proj2 (manual_preview_opens_recorded_title padded_host initial
                  _ _ _ (lit " a") (sample_run_reaches_response _ _ _ _ _)
                  eq_refl eq_refl eq_refl H1 H2 H3))).
Defined.

Lemma ill_formed_title_breaks_render_witness :
  isWellFormed [0xD800] = false /\
  V2.render (state (snd (V2.start lone_surrogate_host initial))) = None.
Proof.
  split; [reflexivity|].
  exact (proj1 (ill_formed_title_breaks_render lone_surrogate_host initial
                  _ [0xD800] eq_refl eq_refl eq_refl eq_refl)).
Defined.

(** One click on the export button, answered by a rejecting endpoint. *)
Lemma sample_reachable :
  reachable V1.render V1.click
            (state (snd (V1.click rejecting_host initial OnExportAndSend))).
Proof.
  eapply reach_step; [apply reach_initial|].
  eapply step_click; [reflexivity|]. left. reflexivity.
Defined.

Lemma session_at_rest_witness :
  reachable V1.render V1.click
            (state (snd (V1.click rejecting_host initial OnExportAndSend))) /\
  phase (state (snd (V1.click rejecting_host initial OnExportAndSend)))
  <> Loading.
Proof.
  split; [exact sample_reachable|].
  exact (proj2 (session_at_rest _ (or_introl sample_reachable))).
Defined.

Lemma session_never_stuck_witness :
  exists h bs,
    V1.render (state (snd (V1.click rejecting_host initial OnExportAndSend)))
    = Some (h :: bs).
Proof.
  destruct (session_never_stuck _ (or_introl sample_reachable))
    as (h & bs & H & _).
  exists h, bs. exact H.
Defined.

Lemma reset_returns_to_initial_witness :
  after reset (state (snd (V1.click rejecting_host initial OnExportAndSend)))
  = initial.
Proof.
  exact (reset_returns_to_initial _ (or_introl sample_reachable)).
Defined.
